(** * AX.25 framing (STACet/ax25.py): a shallow embedding and its properties

    The Python module builds and parses AX.25 UI frames at the bit level:
    HDLC bit stuffing, the bitwise frame check sequence, the shifted
    callsign encoding, and the frame assembly / parsing methods of class
    [AX25].  Python integers are modelled by [Z], a [bytes] object by a list
    of 8-bit characters, a [str] by [string], a [bitarray] by its endianness
    and its list of bits, a generator by the list of the values it yields,
    and a call that may raise by a value of type [result]. *)

From Stdlib Require Import ZArith NArith List Bool Ascii String Lia.
From Stdlib Require QArith.
Import ListNotations.

Local Open Scope Z_scope.

(** ** Python exceptions and results *)

Inductive exn : Type :=
| AssertionError
| ValueError
| TypeError
| IndexError
| NameError
| AttributeError
| FCSChecksumInvalid.   (* Exception("FCS checksum invalid.") *)

Inductive result (A : Type) : Type :=
| Ok (a : A)
| Raise (e : exn).

Arguments Ok {A} a.
Arguments Raise {A} e.

Definition bind {A B : Type} (r : result A) (k : A -> result B) : result B :=
  match r with
  | Ok a => k a
  | Raise e => Raise e
  end.

Notation "x <- r ;; k" := (bind r (fun x => k))
  (at level 61, r at next level, right associativity).
Notation "' p <- r ;; k" := (bind r (fun x => let p := x in k))
  (at level 61, p pattern, r at next level, right associativity).

Fixpoint mapM {A B : Type} (f : A -> result B) (l : list A) : result (list B) :=
  match l with
  | [] => Ok []
  | x :: t => y <- f x ;; ys <- mapM f t ;; Ok (y :: ys)
  end.

Definition is_ok {A : Type} (r : result A) : bool :=
  match r with Ok _ => true | Raise _ => false end.

(** ** bytes, str and dynamically typed values *)

Definition byte : Type := ascii.
Definition bytes : Type := list byte.

(** A bytes literal [b"..."]. *)
Definition bytes_lit (s : string) : bytes := list_ascii_of_string s.

(** The integer a byte stands for when a [bytes] object is iterated. *)
Definition ord (c : byte) : Z := Z.of_N (N_of_ascii c).

(** [chr]/[bytes([v])] for a value known to be below 256. *)
Definition byte_of_Z (v : Z) : byte := ascii_of_N (Z.to_N v).

(** [bytes([v])]: ValueError unless [0 <= v < 256]. *)
Definition bytes_of_int (v : Z) : result bytes :=
  if (0 <=? v) && (v <? 256) then Ok [byte_of_Z v] else Raise ValueError.

Definition byte_eqb (a b : byte) : bool := Ascii.eqb a b.

Fixpoint bytes_eqb (a b : bytes) : bool :=
  match a, b with
  | [], [] => true
  | x :: a', y :: b' => byte_eqb x y && bytes_eqb a' b'
  | _, _ => false
  end.

Inductive pyval : Type :=
| VBool (x : bool)
| VInt (z : Z)
| VBytes (x : bytes)
| VStr (s : string)
| VTuple (items : list bytes).   (* a tuple of bytes objects *)

Fixpoint tuple_eqb (la lb : list bytes) : bool :=
  match la, lb with
  | [], [] => true
  | x :: xs, y :: ys => bytes_eqb x y && tuple_eqb xs ys
  | _, _ => false
  end.

(** Python's [==] on the values above: a [bytes] object never equals a
    [str]; [True == 1]. *)
Definition py_eq (a b : pyval) : bool :=
  match a, b with
  | VBool x, VBool y => Bool.eqb x y
  | VBool x, VInt z => (if x then 1 else 0) =? z
  | VInt z, VBool y => z =? (if y then 1 else 0)
  | VInt x, VInt y => x =? y
  | VBytes x, VBytes y => bytes_eqb x y
  | VStr x, VStr y => String.eqb x y
  | VTuple la, VTuple lb => tuple_eqb la lb
  | _, _ => false
  end.

(** [iter(v)]: the items of an iterable, TypeError otherwise. *)
Definition py_iter (v : pyval) : result (list pyval) :=
  match v with
  | VBool _ | VInt _ => Raise TypeError
  | VBytes x => Ok (map (fun c => VInt (ord c)) x)
  | VStr s => Ok (map (fun c => VStr (String c EmptyString)) (list_ascii_of_string s))
  | VTuple l => Ok (map VBytes l)
  end.

(** [ord(v)]: defined on a [str] or [bytes] of length one. *)
Definition py_ord (v : pyval) : result Z :=
  match v with
  | VStr (String c EmptyString) => Ok (ord c)
  | VBytes [c] => Ok (ord c)
  | _ => Raise TypeError
  end.

(** ** Sequences: slices, [range], indexing *)

Definition len {A : Type} (l : list A) : Z := Z.of_nat (List.length l).

(** A slice bound: negative bounds count from the end, and every bound is
    clamped to [0 .. len]. *)
Definition slice_bound (n : Z) (i : option Z) (default : Z) : Z :=
  match i with
  | None => default
  | Some i => let i := if i <? 0 then i + n else i in Z.max 0 (Z.min n i)
  end.

(** [l[lo:hi]]. *)
Definition py_slice {A : Type} (l : list A) (lo hi : option Z) : list A :=
  let a := slice_bound (len l) lo 0 in
  let b := slice_bound (len l) hi (len l) in
  firstn (Z.to_nat (b - a)) (skipn (Z.to_nat a) l).

(** [range(a, b)]. *)
Definition py_range (a b : Z) : list Z :=
  map (fun i => a + Z.of_nat i) (seq 0 (Z.to_nat (b - a))).

(** [l[i]] for a non-negative index. *)
Definition getitem {A : Type} (l : list A) (i : nat) : result A :=
  match nth_error l i with
  | Some x => Ok x
  | None => Raise IndexError
  end.

(** ** bitarray

    The bit container the module imports: a sequence of bits with an
    endianness that only matters when bytes are packed or unpacked.
    Iterating it yields its bits, [+] accepts any iterable of bits on the
    right, and [search] returns the list of all matching positions. *)

Inductive endianness : Type := little | big.

Record bitarray : Type := BitArray { endian : endianness; bits : list bool }.

(** The eight bits of a byte in the order the bitarray stores them. *)
Definition byte_bits (e : endianness) (c : byte) : list bool :=
  let '(Ascii b0 b1 b2 b3 b4 b5 b6 b7) := c in
  match e with
  | little => [b0; b1; b2; b3; b4; b5; b6; b7]
  | big => [b7; b6; b5; b4; b3; b2; b1; b0]
  end.

Definition pack8 (e : endianness) (b0 b1 b2 b3 b4 b5 b6 b7 : bool) : byte :=
  match e with
  | little => Ascii b0 b1 b2 b3 b4 b5 b6 b7
  | big => Ascii b7 b6 b5 b4 b3 b2 b1 b0
  end.

(** [bitarray(endian=e)]. *)
Definition bitarray_new (e : endianness) : bitarray := BitArray e [].

(** [a.frombytes(bs)]: the bits of [bs] are appended to [a]. *)
Definition frombytes (a : bitarray) (bs : bytes) : bitarray :=
  BitArray (endian a) (bits a ++ flat_map (byte_bits (endian a)) bs).

(** [a.tobytes()]: the last byte is padded with zero bits. *)
Fixpoint tobytes_bits (e : endianness) (l : list bool) : bytes :=
  match l with
  | [] => []
  | b0 :: b1 :: b2 :: b3 :: b4 :: b5 :: b6 :: b7 :: rest =>
      pack8 e b0 b1 b2 b3 b4 b5 b6 b7 :: tobytes_bits e rest
  | _ =>
      [pack8 e (nth 0 l false) (nth 1 l false) (nth 2 l false) (nth 3 l false)
               (nth 4 l false) (nth 5 l false) (nth 6 l false) (nth 7 l false)]
  end.

Definition tobytes (a : bitarray) : bytes := tobytes_bits (endian a) (bits a).

(** [a + it]: a copy of [a] extended by the bits of an iterable. *)
Definition bitarray_concat (a : bitarray) (it : list bool) : bitarray :=
  BitArray (endian a) (bits a ++ it).

(** [a[lo:hi]]. *)
Definition bitarray_slice (a : bitarray) (lo hi : option Z) : bitarray :=
  BitArray (endian a) (py_slice (bits a) lo hi).

(** [a.append(bit)] and [a.pop(0)]. *)
Definition bitarray_append (a : bitarray) (bit : bool) : bitarray :=
  BitArray (endian a) (bits a ++ [bit]).

Definition bitarray_pop0 (a : bitarray) : result (bool * bitarray) :=
  match bits a with
  | [] => Raise IndexError
  | bit :: rest => Ok (bit, BitArray (endian a) rest)
  end.

Fixpoint starts_with (p l : list bool) : bool :=
  match p, l with
  | [], _ => true
  | x :: p', y :: l' => Bool.eqb x y && starts_with p' l'
  | _ :: _, [] => false
  end.

Fixpoint search_from (i : Z) (l p : list bool) : list Z :=
  match l with
  | [] => []
  | _ :: t =>
      (if starts_with p l then [i] else []) ++ search_from (i + 1) t p
  end.

(** [a.search(p)]: every position at which the non-empty pattern [p] occurs
    in [a], in increasing order (occurrences may overlap). *)
Definition search (a p : bitarray) : list Z := search_from 0 (bits a) (bits p).

(** ** bit_stuff / bit_unstuff *)

(** The loop of the generator [bit_stuff]; [yield] is the cons of the
    output. *)
Fixpoint bit_stuff_loop (count : Z) (data : list bool) : list bool :=
  match data with
  | [] => []
  | bit :: data' =>
      let count := if bit then count + 1 else 0 in
      bit :: (if count =? 5
              then false :: bit_stuff_loop 0 data'
              else bit_stuff_loop count data')
  end.

Definition bit_stuff (data : list bool) : list bool := bit_stuff_loop 0 data.

(** The loop of [bit_unstuff], threading [count], [skip] and [ret_bits]. *)
Fixpoint bit_unstuff_loop (count : Z) (skip : bool) (ret_bits : list bool)
         (data : list bool) : list bool :=
  match data with
  | [] => ret_bits
  | bit :: data' =>
      if negb skip then
        let count := if bit then count + 1 else 0 in
        let ret_bits := ret_bits ++ [bit] in
        if count =? 5
        then bit_unstuff_loop 0 true ret_bits data'
        else bit_unstuff_loop count false ret_bits data'
      else bit_unstuff_loop count false ret_bits data'
  end.

Definition bit_unstuff (data : list bool) : bitarray :=
  BitArray little (bit_unstuff_loop 0 false (bits (bitarray_new little)) data).

(** ** class FCS

    The object holds one attribute, [self.fcs]; the methods are written as
    functions from the old value of the attribute to the new one. *)

(** [FCS.__init__]. *)
Definition FCS_init : Z := 0xffff.

(** [FCS.update_bit]. *)
Definition update_bit (fcs : Z) (bit : bool) : Z :=
  let check := Z.land fcs 0x1 =? 1 in
  let fcs := Z.shiftr fcs 1 in
  if negb (Bool.eqb check bit) then Z.lxor fcs 0x8408 else fcs.

(** The inner loop of [FCS.update], [for i in range(7, -1, -1)]. *)
Definition update_byte (fcs : Z) (byte : Z) : Z :=
  fold_left (fun fcs i => update_bit fcs (Z.land (Z.shiftr byte i) 0x01 =? 1))
            [7; 6; 5; 4; 3; 2; 1; 0] fcs.

Fixpoint update_items (fcs : Z) (items : list pyval) : result Z :=
  match items with
  | [] => Ok fcs
  | b :: items' => byte <- py_ord b ;; update_items (update_byte fcs byte) items'
  end.

(** [FCS.update(bytes)]: the generator expression iterates its argument and
    applies [ord] to every item. *)
Definition update (fcs : Z) (bytes : pyval) : result Z :=
  items <- py_iter bytes ;; update_items fcs items.

(** [struct.pack("<H", v)] for [0 <= v < 2 ** 16], the only values
    [digest] passes to it: the low byte, then the high byte. *)
Definition struct_pack_H (v : Z) : bytes :=
  [byte_of_Z (Z.land v 0xff); byte_of_Z (Z.land (Z.shiftr v 8) 0xff)].

(** [FCS.digest]. *)
Definition digest (fcs : Z) : bytes := struct_pack_H (Z.lnot fcs mod 2 ^ 16).

(** ** The generators fcs and fcs_validate *)

Fixpoint fcs_loop (st : Z) (data : list bool) : list bool :=
  match data with
  | [] => bits (frombytes (bitarray_new little) (digest st))
  | bit :: data' => bit :: fcs_loop (update_bit st bit) data'
  end.

(** [fcs(bits)]: the bits, followed by the bits of the digest. *)
Definition fcs (data : list bool) : list bool := fcs_loop FCS_init data.

(** What a generator that may raise produces: the values yielded, and the
    exception that ended it, if any. *)
Definition gen_trace : Type := (list bool * option exn)%type.

Definition yield (bit : bool) (rest : gen_trace) : gen_trace :=
  (bit :: fst rest, snd rest).

Fixpoint fcs_validate_loop (buffer : bitarray) (st : Z) (data : list bool)
  : gen_trace :=
  match data with
  | [] =>
      if negb (bytes_eqb (tobytes buffer) (digest st))
      then ([], Some FCSChecksumInvalid)
      else ([], None)
  | bit :: data' =>
      let buffer := bitarray_append buffer bit in
      if len (bits buffer) >? 16 then
        match bitarray_pop0 buffer with
        | Raise e => ([], Some e)
        | Ok (bit, buffer) =>
            match update st (VBool bit) with
            | Raise e => ([], Some e)
            | Ok st => yield bit (fcs_validate_loop buffer st data')
            end
        end
      else fcs_validate_loop buffer st data'
  end.

(** [fcs_validate(bits)]; [bitarray()] is big-endian by default. *)
Definition fcs_validate (data : list bool) : gen_trace :=
  fcs_validate_loop (bitarray_new big) FCS_init data.

(** ** class AX25 *)

Definition hyphen : byte := "-"%char.
Definition space : byte := " "%char.

(** [bytes.upper]: ASCII lower-case letters are mapped to upper case. *)
Definition upper_byte (c : byte) : byte :=
  if (97 <=? ord c) && (ord c <=? 122) then byte_of_Z (ord c - 32) else c.

Definition bytes_upper (s : bytes) : bytes := map upper_byte s.

(** [s.find(c)] for a one-byte [c]: the first index, or -1. *)
Fixpoint bytes_find (c : byte) (s : bytes) : Z :=
  match s with
  | [] => -1
  | x :: s' =>
      if byte_eqb x c then 0
      else let r := bytes_find c s' in if r <? 0 then -1 else r + 1
  end.

(** [s.split(c)] for a one-byte separator [c]. *)
Fixpoint bytes_split (c : byte) (s : bytes) : list bytes :=
  match s with
  | [] => [[]]
  | x :: s' =>
      if byte_eqb x c then [] :: bytes_split c s'
      else match bytes_split c s' with
           | [] => [[x]]
           | h :: t => (x :: h) :: t
           end
  end.

(** [AX25.callsign_encode] on a bytes object. *)
Definition callsign_encode (callsign : bytes) : result bytes :=
  let callsign := bytes_upper callsign in
  '(callsign, ssid) <-
     (if bytes_find hyphen callsign >? 0 then
        match bytes_split hyphen callsign with
        | [callsign; ssid] => Ok (callsign, ssid)
        | _ => Raise ValueError          (* unpacking into two names *)
        end
      else Ok (callsign, bytes_lit "0")) ;;
  if negb (len ssid =? 1) then Raise AssertionError else
  if negb (len callsign <=? 6) then Raise AssertionError else
  let callsign :=
    if len callsign <? 6
    then fold_left (fun callsign _ => callsign ++ bytes_lit " ")
                   (py_range 0 (6 - len callsign)) callsign
    else callsign in
  let callsign := callsign ++ ssid in
  parts <- mapM (fun char => bytes_of_int (Z.shiftl (ord char) 1)) callsign ;;
  Ok (List.concat parts).

(** [chr(v)] for [0 <= v < 256]. *)
Definition chr (v : Z) : ascii := ascii_of_N (Z.to_N v).

(** [AX25.callsign_decode]; the result is a [str]. *)
Definition callsign_decode (callbits : bitarray) : string :=
  let callstring := tobytes callbits in
  let code := map (fun char => chr (Z.shiftr (ord char) 1)) callstring in
  string_of_list_ascii code.

(** The attributes of an [AX25] object.  [destination], [source] and [info]
    are [bytes] when the frame is built and are overwritten by [parse], which
    also creates [digis]; [control_field] and [protocol_id] exist only after
    [UI.__init__]. *)
Record AX25 : Type := mkAX25 {
  flag : bytes;
  destination : pyval;
  source : pyval;
  digipeaters : list bytes;
  info : pyval;
  digis : option pyval;
  control_field : option bytes;
  protocol_id : option bytes
}.

(** [AX25.__init__]. *)
Definition AX25_init (dest src : bytes) (path : list bytes)
           (payload : bytes) : AX25 :=
  mkAX25 [byte_of_Z 0x7e] (VBytes dest) (VBytes src) path
         (VBytes payload) None None None.

(** [UI.__init__]. *)
Definition UI_init (dest src : bytes) (path : list bytes)
           (payload : bytes) : AX25 :=
  let self := AX25_init dest src path payload in
  mkAX25 (flag self) (destination self) (source self) (digipeaters self)
         (info self) (digis self)
         (Some [byte_of_Z 0x03]) (Some [byte_of_Z 0xf0]).

Definition getattr {A : Type} (a : option A) : result A :=
  match a with
  | Some x => Ok x
  | None => Raise AttributeError
  end.

(** A value used where a bytes-like object is required. *)
Definition as_bytes (v : pyval) : result bytes :=
  match v with
  | VBytes x => Ok x
  | _ => Raise TypeError
  end.

(** [AX25.callsign_encode] applied to an attribute: a [str] has [upper] but
    its [find] rejects the bytes argument; the other values have no
    [upper]. *)
Definition callsign_encode_attr (v : pyval) : result bytes :=
  match v with
  | VBytes x => callsign_encode x
  | VStr _ => Raise TypeError
  | _ => Raise AttributeError
  end.

(** [address_bytes[-1] |= 0x01]. *)
Definition or_last (address_bytes : bytes) : result bytes :=
  match address_bytes with
  | [] => Raise IndexError
  | _ :: _ =>
      Ok (removelast address_bytes
            ++ [byte_of_Z (Z.lor (ord (last address_bytes zero)) 0x01)])
  end.

(** [AX25.encoded_addresses]. *)
Definition encoded_addresses (self : AX25) : result bytes :=
  d <- callsign_encode_attr (destination self) ;;
  s <- callsign_encode_attr (source self) ;;
  g <- mapM callsign_encode (digipeaters self) ;;
  or_last (d ++ s ++ List.concat g).

(** [AX25.header]. *)
Definition header (self : AX25) : result bytes :=
  a <- encoded_addresses self ;;
  c <- getattr (control_field self) ;;
  p <- getattr (protocol_id self) ;;
  Ok (a ++ c ++ p).

(** [AX25.fcs]: the digest over the little-endian bits of header and info. *)
Definition AX25_fcs (self : AX25) : result bytes :=
  h <- header self ;;
  i <- as_bytes (info self) ;;
  let content := frombytes (bitarray_new little) (h ++ i) in
  Ok (digest (fold_left update_bit (bits content) FCS_init)).

(** [AX25.unparse]. *)
Definition unparse (self : AX25) : result bitarray :=
  let flag := frombytes (bitarray_new little) (flag self) in
  h <- header self ;;
  f <- AX25_fcs self ;;
  i <- as_bytes (info self) ;;
  let body := frombytes (bitarray_new little) (h ++ i ++ f) in
  Ok (bitarray_concat (bitarray_concat flag (bit_stuff (bits body)))
                      (bits flag)).

(** The sentinel [parse] stores when decoding fails. *)
Definition no_decode : pyval := VStr "no decode".

(** The four assignments [self.destination = ...], [self.source = ...],
    [self.info = ...], [self.digis = ...]. *)
Definition set_fields (self : AX25) (d s i g : pyval) : AX25 :=
  mkAX25 (flag self) d s (digipeaters self) i (Some g)
         (control_field self) (protocol_id self).

Definition set_no_decode (self : AX25) : AX25 :=
  set_fields self no_decode no_decode no_decode no_decode.

(** The [str] literal ["\x03\xF0"] of the marker test. *)
Definition marker : pyval := VStr (String "003" (String "240" EmptyString)).

(** [for n in range(14, len(bits_bytes) - 1): if ... == marker: break];
    the result is the binding of [n] after the loop, if it has one. *)
Fixpoint marker_loop (bits_bytes : bytes) (ns : list Z) (n : option Z)
  : option Z :=
  match ns with
  | [] => n
  | k :: ns' =>
      if py_eq (VBytes (py_slice bits_bytes (Some k) (Some (k + 2)))) marker
      then Some k
      else marker_loop bits_bytes ns' (Some k)
  end.

(** Reading a local variable that may not have been assigned. *)
Definition read_var {A : Type} (v : option A) : result A :=
  match v with
  | Some x => Ok x
  | None => Raise NameError
  end.

(** The part of the [try] block that follows the marker loop, from the test
    [if n == len(bits_bytes) - 1] to the four assignments.  The calls to
    [print] are left out, except for the local variables they read. *)
Definition parse_split (self : AX25) (bits_unstuff : bitarray)
           (bits_bytes : bytes) (h_dest h_src : bitarray) (n : Z)
  : result AX25 :=
  if n =? len bits_bytes - 1 then Ok (set_no_decode self) else
  let digilen := QArith_base.Qdiv (QArith_base.inject_Z ((n - 14) * 8))
                                  (QArith_base.inject_Z 7) in
  let h_digi :=
    bitarray_slice bits_unstuff (Some 112) (Some (112 + (n - 14) * 8)) in
  let h_len := 112 + (n - 14) * 8 + 16 in
  let fcs := bitarray_slice bits_unstuff (Some (-16)) None in
  let payload := bitarray_slice bits_unstuff (Some h_len) (Some (-16)) in
  let dest := callsign_decode h_dest in
  let src := callsign_decode h_src in
  let digipeaters :=
    if QArith_base.Qeq_bool digilen (QArith_base.inject_Z 0)
    then Some (VTuple [])
    else (* digipeters = self.callsign_decode(h_digi) *) None in
  digipeaters <- read_var digipeaters ;;
  Ok (set_fields self (VStr dest) (VStr src) (VBytes (tobytes payload))
                 digipeaters).

(** The body of the [try] block of [AX25.parse]: the object after the
    block, or the exception that left it. *)
Definition parse_try (self : AX25) (data : bitarray) : result AX25 :=
  let flag := frombytes (bitarray_new little) (flag self) in
  let flag_loc := search data flag in
  loc0 <- getitem flag_loc 0 ;;
  loc1 <- getitem flag_loc 1 ;;
  let bits_noflag := bitarray_slice data (Some (loc0 + 8)) (Some loc1) in
  let bits_unstuff := bit_unstuff (bits bits_noflag) in
  let bits_bytes := tobytes bits_unstuff in
  let h_dest := bitarray_slice bits_unstuff None (Some 56) in
  let h_src := bitarray_slice bits_unstuff (Some 56) (Some 112) in
  n <- read_var (marker_loop bits_bytes (py_range 14 (len bits_bytes - 1)) None) ;;
  parse_split self bits_unstuff bits_bytes h_dest h_src n.

(** [AX25.parse]: the object after the call.  The bare [except] turns every
    exception of the block into the sentinel. *)
Definition parse (self : AX25) (data : bitarray) : AX25 :=
  match parse_try self data with
  | Ok self' => self'
  | Raise _ => set_no_decode self
  end.

(** ** Vocabulary of the properties *)

(** [bits_of D]: the bits of a byte sequence in wire order, least
    significant bit of every byte first. *)
Definition bits_of (D : bytes) : list bool :=
  bits (frombytes (bitarray_new little) D).

(** The counter of [bit_stuff] after it has consumed [data]. *)
Fixpoint count_after (count : Z) (data : list bool) : Z :=
  match data with
  | [] => count
  | bit :: data' =>
      let count := if bit then count + 1 else 0 in
      count_after (if count =? 5 then 0 else count) data'
  end.

(** [l] contains [n] consecutive 1-bits. *)
Definition has_run (n : nat) (l : list bool) : Prop :=
  exists pre post, l = pre ++ repeat true n ++ post.

(** A checker for the absence of six consecutive 1-bits: [c] is the number
    of 1-bits immediately before [l]. *)
Fixpoint runs_below6 (c : nat) (l : list bool) : bool :=
  match l with
  | [] => true
  | true :: l' => (S c <? 6)%nat && runs_below6 (S c) l'
  | false :: l' => runs_below6 0 l'
  end.

(** The pattern [p] occurs in [l] at position [i]. *)
Definition occurs (p l : list bool) (i : nat) : Prop :=
  exists pre post, l = pre ++ p ++ post /\ List.length pre = i.

(** The number of positions of [l] at which the pattern [p] occurs. *)
Fixpoint occurrences (p l : list bool) : nat :=
  match l with
  | [] => 0
  | _ :: l' => (if starts_with p l then 1 else 0) + occurrences p l'
  end.

(** The bits of the flag byte 0x7E. *)
Definition flag_bits : list bool := bits_of [byte_of_Z 0x7e].

(** The UI frame of the encode / parse scenario. *)
Definition ui_example : AX25 :=
  UI_init (bytes_lit "APRS") (bytes_lit "N0CALL")
          [bytes_lit "WIDE1-1"; bytes_lit "WIDE2-1"] (bytes_lit "!").

(** The syntax of a valid callsign: 1 to 6 upper-case letters or digits;
    an SSID is one digit. *)
Definition is_digit (c : byte) : bool := (48 <=? ord c) && (ord c <=? 57).
Definition is_upper_alnum (c : byte) : bool :=
  is_digit c || ((65 <=? ord c) && (ord c <=? 90)).
Definition valid_base (C : bytes) : bool :=
  (1 <=? len C) && (len C <=? 6) && forallb is_upper_alnum C.

(** The low-order bit of a byte. *)
Definition low_bit (c : byte) : bool := Z.odd (ord c).

(** A bytes object without the character "-". *)
Definition no_hyphen (s : bytes) : bool :=
  forallb (fun c => negb (byte_eqb c hyphen)) s.

(** A byte below 128, and such a byte shifted left by one bit. *)
Definition is_ascii7 (c : byte) : bool := ord c <? 128.
Definition shift1 (c : byte) : byte := byte_of_Z (Z.shiftl (ord c) 1).

(** The state every error-free stream leaves in the engine once its
    trailer has been consumed. *)
Definition fcs_residue : Z := 0xf0b8.

(** The state before an [update_bit] step, recovered from the state after
    it: bit 15 tells whether 0x8408 was XORed in. *)
Definition update_bit_inv (state' : Z) (bit : bool) : Z :=
  let x := Z.testbit state' 15 in
  let h := if x then Z.lxor state' 0x8408 else state' in
  2 * h + (if xorb x bit then 1 else 0).

(** [f] holds on the [fuel] integers from [z] on. *)
Fixpoint all_from (fuel : nat) (z : Z) (f : Z -> bool) : bool :=
  match fuel with
  | O => true
  | S k => f z && all_from k (z + 1) f
  end.

(** The counter and the skip flag of [bit_unstuff] after it has consumed
    [data]. *)
Fixpoint unstuff_state (count : Z) (skip : bool) (data : list bool)
  : Z * bool :=
  match data with
  | [] => (count, skip)
  | bit :: data' =>
      if negb skip then
        let count := if bit then count + 1 else 0 in
        if count =? 5
        then unstuff_state 0 true data'
        else unstuff_state count false data'
      else unstuff_state count false data'
  end.

(** A frame body of sixteen bytes that holds two encoded addresses and no
    marker 03 F0, and the bit sequence that carries it between two flags. *)
Definition body_without_marker : bytes :=
  map shift1 (bytes_lit "APRS  0N0CALL0") ++ [byte_of_Z 0x12; byte_of_Z 0x34].

Definition wire_without_marker : bitarray :=
  BitArray little
           (flag_bits ++ bit_stuff (bits_of body_without_marker) ++ flag_bits).

(** The text callsign_decode returns for the bits of a byte string. *)
Definition decoded_text (e : bytes) : list ascii :=
  list_ascii_of_string (callsign_decode (frombytes (bitarray_new little) e)).

(** * Properties *)

(** ** Bit stuffing *)

Section Stuffing.

Lemma bit_unstuff_loop_acc (data : list bool) :
  forall count skip ret,
    bit_unstuff_loop count skip ret data
    = ret ++ bit_unstuff_loop count skip [] data.
Proof.
  induction data as [|bit data IH]; intros count skip ret; simpl.
  - now rewrite app_nil_r.
  - destruct skip; simpl.
    + apply IH.
    + destruct (_ =? 5).
      * rewrite IH, (IH _ _ [bit]). now rewrite app_assoc.
      * rewrite IH, (IH _ _ [bit]). now rewrite app_assoc.
Qed.

Lemma bit_unstuff_loop_stuff (data : list bool) :
  forall count,
    bit_unstuff_loop count false [] (bit_stuff_loop count data) = data.
Proof.
  induction data as [|bit data IH]; intros count; simpl; [reflexivity|].
  destruct ((if bit then count + 1 else 0) =? 5); simpl.
  - rewrite bit_unstuff_loop_acc, IH. reflexivity.
  - rewrite bit_unstuff_loop_acc, IH. reflexivity.
Qed.

(** C3: for every finite bit sequence B, unstuffing the stuffed sequence
    gives B back: [bit_unstuff(bit_stuff(B))] holds exactly the bits of B
    (in a little-endian bitarray). *)
Theorem bit_unstuff_bit_stuff (B : list bool) :
  bit_unstuff (bit_stuff B) = BitArray little B.
Proof.
  unfold bit_unstuff, bit_stuff. simpl.
  now rewrite bit_unstuff_loop_stuff.
Qed.

Lemma runs_below6_stuff (data : list bool) :
  forall count c,
    0 <= count <= 4 -> count = Z.of_nat c ->
    runs_below6 c (bit_stuff_loop count data) = true.
Proof.
  induction data as [|bit data IH]; intros count c Hc Hn; simpl; [reflexivity|].
  destruct bit.
  - destruct (Z.eqb_spec (count + 1) 5) as [E|E].
    + apply andb_true_intro; split.
      * apply Nat.ltb_lt. lia.
      * simpl. apply (IH 0 0%nat); lia.
    + apply andb_true_intro; split.
      * apply Nat.ltb_lt. lia.
      * apply IH; lia.
  - simpl. apply (IH 0 0%nat); lia.
Qed.

Lemma runs_below6_ones (k : nat) :
  forall c post,
    runs_below6 c (repeat true (S k) ++ post) = true -> (c + S k < 6)%nat.
Proof.
  induction k as [|k IH]; intros c post H.
  - simpl in H. apply andb_prop in H as [H _].
    apply Nat.ltb_lt in H. lia.
  - change (repeat true (S (S k)) ++ post)
      with (true :: (repeat true (S k) ++ post)) in H.
    simpl in H. apply andb_prop in H as [_ H].
    apply IH in H. lia.
Qed.

Lemma runs_below6_suffix (pre l : list bool) :
  forall c, runs_below6 c (pre ++ l) = true ->
            exists c', runs_below6 c' l = true.
Proof.
  induction pre as [|bit pre IH]; intros c H.
  - now exists c.
  - destruct bit; simpl in H.
    + apply andb_prop in H as [_ H]. now apply IH in H.
    + now apply IH in H.
Qed.

Lemma runs_below6_no_run (c : nat) (l : list bool) :
  runs_below6 c l = true -> ~ has_run 6 l.
Proof.
  intros H (pre & post & ->).
  apply runs_below6_suffix in H as [c' H].
  apply runs_below6_ones in H. lia.
Qed.

Lemma bit_stuff_loop_app (p l : list bool) :
  forall count,
    bit_stuff_loop count (p ++ l)
    = bit_stuff_loop count p ++ bit_stuff_loop (count_after count p) l.
Proof.
  induction p as [|bit p IH]; intros count; simpl; [reflexivity|].
  destruct (_ =? 5); simpl; now rewrite IH.
Qed.

(** C4: the output of bit_stuff never contains six consecutive 1-bits; and
    wherever the counter is zero (at the start, after a 0-bit, after a
    stuffed bit), five 1-bits of input are emitted followed by one synthetic
    0-bit, after which the rest of the input is stuffed from a fresh counter,
    also when the five 1-bits end the input. *)
Theorem bit_stuff_no_six_ones (B p l : list bool) :
  ~ has_run 6 (bit_stuff B)
  /\ (count_after 0 p = 0 ->
      bit_stuff (p ++ repeat true 5 ++ l)
      = bit_stuff p ++ repeat true 5 ++ false :: bit_stuff l)
  /\ (count_after 0 p = 0 ->
      bit_stuff (p ++ repeat true 5) = bit_stuff p ++ repeat true 5 ++ [false]).
Proof.
  split; [|split].
  - apply (runs_below6_no_run 0). apply (runs_below6_stuff B 0 0%nat); lia.
  - intros H. unfold bit_stuff. rewrite bit_stuff_loop_app, H. reflexivity.
  - intros H. unfold bit_stuff. rewrite bit_stuff_loop_app, H. reflexivity.
Qed.

(** The property at an input that ends with seven 1-bits after a 0-bit. *)
Lemma bit_stuff_no_six_ones_witness :
  count_after 0 [true; false] = 0
  /\ bit_stuff ([true; false] ++ repeat true 5 ++ [true; true])
     = bit_stuff [true; false] ++ repeat true 5 ++ false :: bit_stuff [true; true].
Proof.
  split; [reflexivity|].
  apply (bit_stuff_no_six_ones [] [true; false] [true; true]). reflexivity.
Defined.

End Stuffing.

(** ** The frame check sequence engine *)

Section FrameCheckSequence.

Lemma ord_byte_of_Z (v : Z) : 0 <= v < 256 -> ord (byte_of_Z v) = v.
Proof.
  intros H. unfold ord, byte_of_Z.
  rewrite N_ascii_embedding by lia. lia.
Qed.

Lemma ord_range (c : byte) : 0 <= ord c < 256.
Proof.
  unfold ord. pose proof (N_ascii_bounded c). lia.
Qed.

Lemma byte_of_Z_ord (c : byte) : byte_of_Z (ord c) = c.
Proof.
  unfold ord, byte_of_Z. rewrite N2Z.id. apply ascii_N_embedding.
Qed.

Lemma land_1_odd (z : Z) : (Z.land z 1 =? 1) = Z.odd z.
Proof.
  change 1 with (Z.ones 1) at 1. rewrite Z.land_ones by lia.
  change (2 ^ 1) with 2. rewrite Zmod_odd.
  now destruct (Z.odd z).
Qed.

Lemma land_1_even (z : Z) : (Z.land z 1 =? 0) = negb (Z.odd z).
Proof.
  change 1 with (Z.ones 1) at 1. rewrite Z.land_ones by lia.
  change (2 ^ 1) with 2. rewrite Zmod_odd.
  now destruct (Z.odd z).
Qed.

Lemma lnot_mod_65536 (z : Z) :
  Z.lnot z mod 2 ^ 16 = 65535 - z mod 65536.
Proof.
  rewrite Z.lnot_eq_pred_opp. change (2 ^ 16) with 65536.
  pose proof (Z.mod_pos_bound z 65536 ltac:(lia)) as Hb.
  symmetry. apply (Z.mod_unique_pos _ _ (- (z / 65536) - 1)); [lia|].
  pose proof (Z.div_mod z 65536 ltac:(lia)). lia.
Qed.

Lemma struct_pack_H_bytes (v : Z) :
  0 <= v < 65536 -> map ord (struct_pack_H v) = [v mod 256; v / 256].
Proof.
  intros H. unfold struct_pack_H. simpl map.
  change 0xff with (Z.ones 8). rewrite !Z.land_ones by lia.
  rewrite Z.shiftr_div_pow2 by lia. change (2 ^ 8) with 256.
  assert (0 <= v / 256 < 256) as Hq.
  { split; [apply Z.div_pos; lia | apply Z.div_lt_upper_bound; lia]. }
  rewrite (Z.mod_small (v / 256)) by lia.
  pose proof (Z.mod_pos_bound v 256 ltac:(lia)).
  rewrite !ord_byte_of_Z by lia. reflexivity.
Qed.

(** The state stays a 16-bit value. *)
Lemma update_bit_range (state : Z) (bit : bool) :
  0 <= state < 65536 -> 0 <= update_bit state bit < 65536.
Proof.
  intros H. unfold update_bit. rewrite Z.shiftr_div_pow2 by lia.
  change (2 ^ 1) with 2.
  assert (0 <= state / 2 < 32768) as Hq.
  { split; [apply Z.div_pos; lia | apply Z.div_lt_upper_bound; lia]. }
  destruct (negb _); [|lia].
  split; [apply Z.lxor_nonneg; lia|].
  destruct (Z.eq_dec (Z.lxor (state / 2) 0x8408) 0) as [E|E]; [lia|].
  assert (0 <= Z.lxor (state / 2) 0x8408) by (apply Z.lxor_nonneg; lia).
  change 65536 with (2 ^ 16). apply Z.log2_lt_pow2; [lia|].
  eapply Z.le_lt_trans; [apply Z.log2_lxor; lia|].
  apply Z.max_lub_lt; [|reflexivity].
  destruct (Z.eq_dec (state / 2) 0) as [E0|E0]; [rewrite E0; reflexivity|].
  apply Z.log2_lt_pow2; [lia|]. change (2 ^ 16) with 65536. lia.
Qed.

(** C5: the engine starts from 0xFFFF; update_bit takes check to be the
    low bit of the state, halves the state, and XORs 0x8408 into it exactly
    when check differs from the input bit; digest is two bytes, low byte
    first, whose value is the one's complement of the state modulo 2^16. *)
Theorem fcs_engine (state : Z) (bit : bool) :
  FCS_init = 65535
  /\ update_bit state bit
     = (let check := negb (Z.land state 1 =? 0) in
        let state' := state / 2 in
        if xorb check bit then Z.lxor state' 0x8408 else state')
  /\ List.length (digest state) = 2%nat
  /\ map ord (digest state)
     = [(65535 - state mod 65536) mod 256; (65535 - state mod 65536) / 256].
Proof.
  split; [reflexivity|]. split; [|split; [reflexivity|]].
  - unfold update_bit. cbv zeta.
    rewrite land_1_odd, land_1_even, Z.shiftr_div_pow2 by lia.
    change (2 ^ 1) with 2.
    now destruct (Z.odd state), bit.
  - unfold digest. rewrite lnot_mod_65536.
    apply struct_pack_H_bytes.
    pose proof (Z.mod_pos_bound state 65536 ltac:(lia)). lia.
Qed.

(** The engine is CRC-16/X-25: its check value on "123456789" is 0x906E. *)
Example fcs_check_value :
  map ord (digest (fold_left update_bit (bits_of (bytes_lit "123456789")) FCS_init))
  = [0x6e; 0x90].
Proof. vm_compute. reflexivity. Qed.

End FrameCheckSequence.

(** ** The generators fcs and fcs_validate *)

Section Validate.

Lemma byte_bits_length (e : endianness) (c : byte) :
  List.length (byte_bits e c) = 8%nat.
Proof. now destruct c, e. Qed.

Lemma bits_of_length (D : bytes) :
  List.length (bits_of D) = (8 * List.length D)%nat.
Proof.
  unfold bits_of, frombytes. simpl.
  induction D as [|c D IH]; [reflexivity|].
  simpl flat_map. rewrite length_app, byte_bits_length, IH. simpl. lia.
Qed.

Lemma fcs_loop_length (data : list bool) :
  forall st, List.length (fcs_loop st data) = (List.length data + 16)%nat.
Proof.
  induction data as [|bit data IH]; intros st; simpl.
  - rewrite !length_app, !byte_bits_length. reflexivity.
  - now rewrite IH.
Qed.

(** As soon as a seventeenth bit arrives, [fcs.update(bit)] is called on a
    single bit, which is not iterable. *)
Lemma fcs_validate_loop_long (data : list bool) :
  forall buffer st,
    (List.length (bits buffer) <= 16)%nat ->
    (16 < List.length (bits buffer) + List.length data)%nat ->
    fcs_validate_loop buffer st data = ([], Some TypeError).
Proof.
  induction data as [|bit data IH]; intros buffer st Hb Hl; simpl in *.
  - lia.
  - unfold len. simpl. rewrite length_app. simpl.
    destruct (Z.gtb_spec (Z.of_nat (List.length (bits buffer) + 1)) 16) as [G|G].
    + unfold bitarray_pop0, bitarray_append. simpl.
      destruct (bits buffer ++ [bit]) eqn:E.
      * destruct (bits buffer); discriminate.
      * reflexivity.
    + apply IH; unfold bitarray_append; simpl; rewrite length_app; simpl; lia.
Qed.

(** C2 (what the code does): for every non-empty byte sequence, validating
    the output of [fcs] yields no bit at all and ends with a TypeError, not
    with the bits of the input and not with the checksum error. *)
Theorem fcs_validate_fcs_type_error (c : byte) (D : bytes) :
  fcs_validate (fcs (bits_of (c :: D))) = ([], Some TypeError).
Proof.
  unfold fcs_validate, fcs. apply fcs_validate_loop_long; simpl.
  - lia.
  - rewrite fcs_loop_length, bits_of_length. simpl. lia.
Qed.

(** The same at the one-byte input [b"A"], whose bits the round trip should
    have returned. *)
Example fcs_validate_fcs_A :
  fcs_validate (fcs (bits_of (bytes_lit "A"))) = ([], Some TypeError)
  /\ bits_of (bytes_lit "A")
     = [true; false; false; false; false; false; true; false].
Proof. split; reflexivity. Qed.

(** On the empty byte sequence no seventeenth bit ever arrives: the trailer
    of sixteen 0-bits is accepted, and flipping one of its bits is reported
    as a checksum error. *)
Example fcs_validate_fcs_empty :
  fcs_validate (fcs (bits_of [])) = ([], None)
  /\ fcs_validate (true :: repeat false 15) = ([], Some FCSChecksumInvalid).
Proof. split; reflexivity. Qed.

End Validate.

(** ** The callsign codec *)

Section Callsign.

Lemma upper_byte_hyphen (c : byte) :
  byte_eqb (upper_byte c) hyphen = byte_eqb c hyphen.
Proof. destruct c as [[] [] [] [] [] [] [] []]; reflexivity. Qed.

Lemma upper_byte_ascii7 (c : byte) :
  is_ascii7 (upper_byte c) = is_ascii7 c.
Proof. destruct c as [[] [] [] [] [] [] [] []]; reflexivity. Qed.

Lemma upper_byte_valid (c : byte) :
  is_upper_alnum c = true ->
  upper_byte c = c /\ is_ascii7 c = true /\ byte_eqb c hyphen = false.
Proof. destruct c as [[] [] [] [] [] [] [] []]; vm_compute; intuition congruence. Qed.

Lemma bytes_upper_length (s : bytes) :
  List.length (bytes_upper s) = List.length s.
Proof. apply length_map. Qed.

Lemma bytes_find_upper (s : bytes) :
  bytes_find hyphen (bytes_upper s) = bytes_find hyphen s.
Proof.
  induction s as [|c s IH]; simpl; [reflexivity|].
  now rewrite upper_byte_hyphen, IH.
Qed.

Lemma bytes_split_upper (s : bytes) :
  bytes_split hyphen (bytes_upper s) = map bytes_upper (bytes_split hyphen s).
Proof.
  induction s as [|c s IH]; simpl; [reflexivity|].
  rewrite upper_byte_hyphen, IH.
  destruct (byte_eqb c hyphen); [reflexivity|].
  now destruct (bytes_split hyphen s).
Qed.

Lemma forallb_ascii7_upper (s : bytes) :
  forallb is_ascii7 (bytes_upper s) = forallb is_ascii7 s.
Proof.
  induction s as [|c s IH]; simpl; [reflexivity|].
  now rewrite upper_byte_ascii7, IH.
Qed.

Lemma bytes_find_nonneg_or (s : bytes) :
  bytes_find hyphen s = -1 \/ 0 <= bytes_find hyphen s.
Proof.
  induction s as [|c s IH]; simpl; [now left|].
  destruct (byte_eqb c hyphen); [right; lia|].
  destruct (Z.ltb_spec (bytes_find hyphen s) 0); [now left | right; lia].
Qed.

Lemma bytes_find_no_hyphen (s : bytes) :
  no_hyphen s = true -> bytes_find hyphen s = -1.
Proof.
  induction s as [|c s IH]; simpl; [reflexivity|].
  intros H. apply andb_prop in H as [H1 H2].
  destruct (byte_eqb c hyphen); [discriminate|].
  now rewrite IH.
Qed.

Lemma bytes_find_app_hyphen (c s : bytes) :
  no_hyphen c = true -> bytes_find hyphen (c ++ hyphen :: s) = len c.
Proof.
  induction c as [|x c IH]; simpl; intros H.
  - reflexivity.
  - apply andb_prop in H as [H1 H2].
    destruct (byte_eqb x hyphen); [discriminate|].
    rewrite IH by assumption. unfold len.
    destruct (Z.ltb_spec (Z.of_nat (List.length c)) 0); simpl List.length; lia.
Qed.

Lemma bytes_split_no_hyphen (s : bytes) :
  no_hyphen s = true -> bytes_split hyphen s = [s].
Proof.
  induction s as [|c s IH]; simpl; [reflexivity|].
  intros H. apply andb_prop in H as [H1 H2].
  destruct (byte_eqb c hyphen); [discriminate|].
  now rewrite IH.
Qed.

Lemma bytes_split_app_hyphen (c s : bytes) :
  no_hyphen c = true -> no_hyphen s = true ->
  bytes_split hyphen (c ++ hyphen :: s) = [c; s].
Proof.
  intros Hc Hs. induction c as [|x c IH]; simpl.
  - now rewrite bytes_split_no_hyphen.
  - simpl in Hc. apply andb_prop in Hc as [H1 H2].
    destruct (byte_eqb x hyphen); [discriminate|].
    now rewrite IH.
Qed.

Lemma no_hyphen_upper (s : bytes) :
  no_hyphen (bytes_upper s) = no_hyphen s.
Proof.
  induction s as [|c s IH]; simpl; [reflexivity|].
  now rewrite upper_byte_hyphen, IH.
Qed.

Lemma py_range_length (a b : Z) :
  List.length (py_range a b) = Z.to_nat (b - a).
Proof. unfold py_range. now rewrite length_map, length_seq. Qed.

Lemma fold_left_pad (l : list Z) :
  forall u : bytes,
    fold_left (fun callsign _ => callsign ++ bytes_lit " ") l u
    = u ++ repeat space (List.length l).
Proof.
  induction l as [|i l IH]; intros u; simpl.
  - now rewrite app_nil_r.
  - rewrite IH, <- app_assoc. reflexivity.
Qed.

(** The padding step: a callsign of at most six bytes becomes six bytes. *)
Lemma pad6 (u : bytes) :
  len u <= 6 ->
  (if len u <? 6
   then fold_left (fun callsign _ => callsign ++ bytes_lit " ")
                  (py_range 0 (6 - len u)) u
   else u)
  = u ++ repeat space (6 - List.length u).
Proof.
  unfold len. intros H.
  destruct (Z.ltb_spec (Z.of_nat (List.length u)) 6) as [L|L].
  - rewrite fold_left_pad, py_range_length. f_equal. f_equal. lia.
  - replace (6 - List.length u)%nat with 0%nat by lia.
    simpl. now rewrite app_nil_r.
Qed.

(** The final list comprehension: every byte is doubled, and a byte of 128
    or more cannot be. *)
Lemma shift_all (l : bytes) :
  (parts <- mapM (fun char => bytes_of_int (Z.shiftl (ord char) 1)) l ;;
   Ok (List.concat parts))
  = if forallb is_ascii7 l then Ok (map shift1 l) else Raise ValueError.
Proof.
  induction l as [|c l IH]; [reflexivity|].
  cbn [mapM forallb map].
  unfold bytes_of_int at 1, is_ascii7 at 1, shift1 at 1.
  rewrite Z.shiftl_mul_pow2 by lia. change (2 ^ 1) with 2.
  pose proof (ord_range c) as Hc.
  destruct (Z.ltb_spec (ord c) 128) as [L|L].
  - replace ((0 <=? ord c * 2) && (ord c * 2 <? 256)) with true
      by (symmetry; apply andb_true_intro; split;
          [apply Z.leb_le | apply Z.ltb_lt]; lia).
    cbn [bind andb].
    destruct (mapM _ l) as [parts|e]; cbn [bind] in *.
    + destruct (forallb is_ascii7 l); [|discriminate].
      injection IH as IH. now rewrite <- IH.
    + destruct (forallb is_ascii7 l); [discriminate|]. exact IH.
  - replace ((0 <=? ord c * 2) && (ord c * 2 <? 256)) with false; [reflexivity|].
    symmetry. apply andb_false_intro2. apply Z.ltb_ge. lia.
Qed.

Lemma len_upper (s : bytes) : len (bytes_upper s) = len s.
Proof. unfold len. now rewrite bytes_upper_length. Qed.

(** The encoder on an input that is not split: no hyphen, or a hyphen in
    front. *)
Lemma callsign_encode_nosplit (cs : bytes) :
  bytes_find hyphen cs <= 0 ->
  callsign_encode cs
  = if 6 <? len cs then Raise AssertionError
    else if forallb is_ascii7 cs
         then Ok (map shift1 (bytes_upper cs
                                ++ repeat space (6 - List.length cs)
                                ++ bytes_lit "0"))
         else Raise ValueError.
Proof.
  intros Hf. unfold callsign_encode. rewrite bytes_find_upper.
  destruct (Z.gtb_spec (bytes_find hyphen cs) 0) as [G|G]; [lia|].
  cbn [bind]. change (len (bytes_lit "0") =? 1) with true. cbn [negb].
  rewrite len_upper.
  destruct (Z.leb_spec (len cs) 6) as [L|L], (Z.ltb_spec 6 (len cs)) as [M|M];
    try lia; cbn [negb]; [|reflexivity].
  rewrite <- len_upper in L. rewrite <- (len_upper cs).
  rewrite pad6 by assumption. rewrite shift_all.
  rewrite !forallb_app, forallb_ascii7_upper, bytes_upper_length.
  replace (forallb is_ascii7 (repeat space (6 - List.length cs))) with true.
  - change (forallb is_ascii7 (bytes_lit "0")) with true.
    rewrite !andb_true_r, <- app_assoc. reflexivity.
  - symmetry. apply forallb_forall. intros x Hx.
    apply repeat_spec in Hx. now subst x.
Qed.

(** The encoder on [c-s] with a non-empty [c], and no further hyphen. *)
Lemma callsign_encode_split (c s : bytes) :
  c <> [] -> no_hyphen c = true -> no_hyphen s = true ->
  callsign_encode (c ++ hyphen :: s)
  = if negb (len s =? 1) then Raise AssertionError
    else if 6 <? len c then Raise AssertionError
    else if forallb is_ascii7 (c ++ s)
         then Ok (map shift1 (bytes_upper c
                                ++ repeat space (6 - List.length c)
                                ++ bytes_upper s))
         else Raise ValueError.
Proof.
  intros Hne Hc Hs. unfold callsign_encode.
  rewrite bytes_find_upper, bytes_split_upper.
  rewrite bytes_find_app_hyphen, bytes_split_app_hyphen by assumption.
  assert (0 < len c) as Hpos.
  { unfold len. destruct c; [congruence|]. simpl List.length. lia. }
  destruct (Z.gtb_spec (len c) 0) as [G|G]; [|lia].
  cbn [map bind]. rewrite !len_upper.
  destruct (len s =? 1); cbn [negb]; [|reflexivity].
  destruct (Z.leb_spec (len c) 6) as [L|L], (Z.ltb_spec 6 (len c)) as [M|M];
    try lia; cbn [negb]; [|reflexivity].
  rewrite <- len_upper in L. rewrite <- (len_upper c).
  rewrite pad6 by assumption. rewrite shift_all.
  rewrite !forallb_app, !forallb_ascii7_upper, bytes_upper_length.
  replace (forallb is_ascii7 (repeat space (6 - List.length c))) with true.
  - rewrite andb_true_r, <- app_assoc. reflexivity.
  - symmetry. apply forallb_forall. intros x Hx.
    apply repeat_spec in Hx. now subst x.
Qed.

Lemma tobytes_frombytes (e : endianness) (l : bytes) :
  tobytes (frombytes (bitarray_new e) l) = l.
Proof.
  unfold tobytes, frombytes. simpl.
  induction l as [|c l IH]; [reflexivity|].
  destruct c as [b0 b1 b2 b3 b4 b5 b6 b7], e; simpl; now rewrite IH.
Qed.

Lemma unshift_shift1 (c : byte) :
  is_ascii7 c = true -> chr (Z.shiftr (ord (shift1 c)) 1) = c.
Proof.
  destruct c as [[] [] [] [] [] [] [] []]; vm_compute; congruence.
Qed.

Lemma low_bit_shift1 (c : byte) :
  is_ascii7 c = true -> low_bit (shift1 c) = false.
Proof.
  destruct c as [[] [] [] [] [] [] [] []]; vm_compute; congruence.
Qed.

Lemma decode_shifted (l : bytes) :
  forallb is_ascii7 l = true ->
  map (fun char => chr (Z.shiftr (ord char) 1)) (map shift1 l) = l.
Proof.
  induction l as [|c l IH]; cbn [map forallb]; [reflexivity|].
  intros H. apply andb_prop in H as [H1 H2].
  rewrite IH by assumption. now rewrite unshift_shift1.
Qed.

Lemma valid_bytes (C : bytes) :
  forallb is_upper_alnum C = true ->
  bytes_upper C = C /\ forallb is_ascii7 C = true /\ no_hyphen C = true.
Proof.
  induction C as [|c C IH]; simpl; [auto|].
  intros H. apply andb_prop in H as [H1 H2].
  destruct (upper_byte_valid c H1) as (U & A & N).
  destruct (IH H2) as (U' & A' & N').
  repeat split.
  - change (upper_byte c :: bytes_upper C = c :: C). now rewrite U, U'.
  - now rewrite A, A'.
  - now rewrite N, N'.
Qed.

(** [callsign_encode(b"APRS")]: A, P, R, S, two spaces and "0", each shifted
    left by one bit. *)
Example callsign_encode_APRS :
  callsign_encode (bytes_lit "APRS")
  = Ok (map shift1 (bytes_lit "APRS  0"))
  /\ map ord (map shift1 (bytes_lit "APRS  0"))
     = [0x82; 0xa0; 0xa4; 0xa6; 0x40; 0x40; 0x60].
Proof. split; reflexivity. Qed.

(** The round trip in general: on [C-S] with a non-empty [C] of at most six
    bytes below 128, none of them a hyphen, decoding returns the upper-cased
    [C], padded, and the upper-cased [S]. *)
Lemma callsign_decode_encode_upper (C : bytes) (S : byte) :
  C <> [] -> len C <= 6 ->
  no_hyphen C = true -> forallb is_ascii7 C = true ->
  byte_eqb S hyphen = false -> is_ascii7 S = true ->
  exists enc,
    callsign_encode (C ++ hyphen :: [S]) = Ok enc
    /\ List.length enc = 7%nat
    /\ callsign_decode (frombytes (bitarray_new little) enc)
       = string_of_list_ascii
           (bytes_upper C ++ repeat space (6 - List.length C) ++ [upper_byte S]).
Proof.
  intros Hne H6 NC AC NS AS.
  assert (no_hyphen [S] = true) as NS' by (simpl; now rewrite NS).
  rewrite (callsign_encode_split C [S] Hne NC NS').
  change (len [S] =? 1) with true. cbn [negb].
  destruct (Z.ltb_spec 6 (len C)) as [M|M]; [lia|].
  rewrite forallb_app, AC. cbn [forallb]. rewrite AS. cbn [andb].
  eexists. split; [reflexivity|]. split.
  - rewrite length_map, !length_app, repeat_length, bytes_upper_length.
    cbn [bytes_upper map List.length]. unfold len in H6. lia.
  - unfold callsign_decode. rewrite tobytes_frombytes, decode_shifted.
    + reflexivity.
    + rewrite !forallb_app, forallb_ascii7_upper, AC.
      cbn [bytes_upper map forallb]. rewrite upper_byte_ascii7, AS.
      rewrite andb_true_r. cbn [andb].
      apply forallb_forall. intros x Hx. apply repeat_spec in Hx. now subst x.
Qed.

(** C6: for every valid callsign C (1 to 6 upper-case letters or digits)
    and every SSID digit S, callsign_encode(C-S) succeeds with 7 bytes, and
    callsign_decode of these bytes is C padded with spaces to 6 characters,
    followed by S. *)
Theorem callsign_decode_encode (C : bytes) (S : byte) :
  valid_base C = true -> is_digit S = true ->
  exists enc,
    callsign_encode (C ++ hyphen :: [S]) = Ok enc
    /\ List.length enc = 7%nat
    /\ callsign_decode (frombytes (bitarray_new little) enc)
       = string_of_list_ascii (C ++ repeat space (6 - List.length C) ++ [S]).
Proof.
  unfold valid_base. intros HC HS.
  apply andb_prop in HC as [HC Hv]. apply andb_prop in HC as [H1 H6].
  apply Z.leb_le in H1, H6.
  destruct (valid_bytes C Hv) as (UC & AC & NC).
  assert (is_upper_alnum S = true) as HS'
      by (unfold is_upper_alnum; now rewrite HS).
  destruct (upper_byte_valid S HS') as (US & AS & NS).
  assert (C <> []) as Hne by (intros ->; unfold len in H1; simpl in H1; lia).
  destruct (callsign_decode_encode_upper C S Hne H6 NC AC NS AS)
    as (enc & E & L & D).
  exists enc. rewrite UC, US in D. auto.
Qed.

(** The round trip at the callsign WIDE2 with SSID 1. *)
Lemma callsign_decode_encode_witness :
  exists enc,
    callsign_encode (bytes_lit "WIDE2" ++ hyphen :: ["1"%char]) = Ok enc
    /\ List.length enc = 7%nat
    /\ callsign_decode (frombytes (bitarray_new little) enc)
       = string_of_list_ascii
           (bytes_lit "WIDE2" ++ repeat space (6 - 5) ++ ["1"%char]).
Proof.
  apply (callsign_decode_encode (bytes_lit "WIDE2") "1"%char); reflexivity.
Defined.

(** C9: when the input splits into a callsign part and an SSID part, the
    call raises AssertionError if the SSID part is not exactly one character
    or the callsign part has more than 6; when the input is not split, it
    raises AssertionError if the input has more than 6 characters.  The
    result is then the exception, and no encoded bytes. *)
Theorem callsign_encode_assertion (c s cs : bytes) :
  (c <> [] -> no_hyphen c = true -> no_hyphen s = true ->
   List.length s <> 1%nat \/ (6 < List.length c)%nat ->
   callsign_encode (c ++ hyphen :: s) = Raise AssertionError)
  /\ (bytes_find hyphen cs <= 0 -> (6 < List.length cs)%nat ->
      callsign_encode cs = Raise AssertionError).
Proof.
  split.
  - intros Hne Hc Hs Hbad.
    rewrite (callsign_encode_split c s Hne Hc Hs). unfold len.
    destruct (Z.eqb_spec (Z.of_nat (List.length s)) 1) as [E|E]; cbn [negb];
      [|reflexivity].
    destruct (Z.ltb_spec 6 (Z.of_nat (List.length c))); [reflexivity|lia].
  - intros Hf Hl. rewrite (callsign_encode_nosplit cs Hf). unfold len.
    destruct (Z.ltb_spec 6 (Z.of_nat (List.length cs))); [reflexivity|lia].
Qed.

(** The assertion on a two-character SSID and on a seven-character
    callsign. *)
Lemma callsign_encode_assertion_witness :
  callsign_encode (bytes_lit "AB" ++ hyphen :: bytes_lit "12")
  = Raise AssertionError
  /\ callsign_encode (bytes_lit "ABCDEFG") = Raise AssertionError.
Proof.
  split.
  - apply (callsign_encode_assertion (bytes_lit "AB") (bytes_lit "12") []).
    + discriminate.
    + reflexivity.
    + reflexivity.
    + left. simpl. lia.
  - apply (callsign_encode_assertion [] [] (bytes_lit "ABCDEFG")).
    + vm_compute. discriminate.
    + simpl. lia.
Defined.

(** C10: an input whose first byte is "-" is never split: it raises
    AssertionError when it has more than 6 bytes, and otherwise the whole
    input, hyphen included, is the callsign part, padded to 6 bytes and
    followed by the default SSID "0" (ValueError if a byte is 128 or
    more). *)
Theorem callsign_encode_leading_hyphen (rest : bytes) :
  callsign_encode (hyphen :: rest)
  = if 6 <? len (hyphen :: rest) then Raise AssertionError
    else if forallb is_ascii7 rest
         then Ok (map shift1 (hyphen :: bytes_upper rest
                                ++ repeat space (5 - List.length rest)
                                ++ bytes_lit "0"))
         else Raise ValueError.
Proof.
  rewrite callsign_encode_nosplit by (simpl; lia).
  reflexivity.
Qed.

End Callsign.

(** ** The address field *)

Section Addresses.

(** What a successful callsign_encode returns, whatever its input: seven
    bytes, all with a clear low-order bit. *)
Lemma callsign_encode_ok_shape (cs e : bytes) :
  callsign_encode cs = Ok e ->
  List.length e = 7%nat /\ forallb (fun b => negb (low_bit b)) e = true.
Proof.
  unfold callsign_encode.
  match goal with
  | |- bind ?r _ = _ -> _ => destruct r as [[c s]|]
  end; cbn [bind]; [|discriminate].
  destruct (Z.eqb_spec (len s) 1) as [E1|E1]; cbn [negb]; [|discriminate].
  destruct (Z.leb_spec (len c) 6) as [E2|E2]; cbn [negb]; [|discriminate].
  rewrite pad6 by assumption. rewrite shift_all.
  destruct (forallb is_ascii7 _) eqn:A; [|discriminate].
  intros [= <-]. split.
  - rewrite length_map, !length_app, repeat_length. unfold len in E1, E2.
    destruct (List.length c) as [|[|[|[|[|[|n]]]]]]; lia.
  - rewrite forallb_forall in A. apply forallb_forall.
    intros x Hx. apply in_map_iff in Hx as (y & <- & Hy).
    now rewrite low_bit_shift1 by auto.
Qed.

Lemma mapM_callsign_encode (path : list bytes) :
  forallb (fun d => is_ok (callsign_encode d)) path = true ->
  exists g,
    mapM callsign_encode path = Ok g
    /\ List.length (List.concat g) = (7 * List.length path)%nat
    /\ forallb (fun b => negb (low_bit b)) (List.concat g) = true.
Proof.
  induction path as [|d path IH]; cbn [forallb mapM].
  - intros _. exists []. auto.
  - intros H. apply andb_prop in H as [H1 H2].
    destruct (callsign_encode d) as [e|] eqn:E; [|discriminate].
    destruct (callsign_encode_ok_shape d e E) as [L P].
    destruct (IH H2) as (g & -> & Lg & Pg).
    exists (e :: g). cbn [bind List.concat].
    rewrite length_app, forallb_app, L, Lg, P, Pg.
    repeat split. cbn [List.length]. lia.
Qed.

Lemma forallb_removelast {A : Type} (f : A -> bool) (l : list A) :
  forallb f l = true -> forallb f (removelast l) = true.
Proof.
  induction l as [|x l IH]; [auto|].
  cbn [forallb]. intros H. apply andb_prop in H as [H1 H2].
  destruct l as [|y l]; [reflexivity|].
  change (removelast (x :: y :: l)) with (x :: removelast (y :: l)).
  cbn [forallb]. now rewrite H1, IH.
Qed.

Lemma low_bit_or1 (c : byte) :
  low_bit (byte_of_Z (Z.lor (ord c) 0x01)) = true.
Proof. destruct c as [[] [] [] [] [] [] [] []]; reflexivity. Qed.

(** C7: when callsign_encode succeeds on the destination, on the source and
    on every digipeater, encoded_addresses returns 7 * (2 + number of
    digipeaters) bytes; the last one has its low-order bit set and every
    byte before it has its low-order bit clear. *)
Theorem encoded_addresses_low_bits (self : AX25) :
  is_ok (callsign_encode_attr (destination self)) = true ->
  is_ok (callsign_encode_attr (source self)) = true ->
  forallb (fun d => is_ok (callsign_encode d)) (digipeaters self) = true ->
  exists a,
    encoded_addresses self = Ok a
    /\ List.length a = (7 * (2 + List.length (digipeaters self)))%nat
    /\ low_bit (last a zero) = true
    /\ forallb (fun b => negb (low_bit b)) (removelast a) = true.
Proof.
  intros Hd Hs Hg. unfold encoded_addresses.
  destruct (destination self) as [| |d| |]; try discriminate.
  destruct (source self) as [| |s| |]; try discriminate.
  cbn [callsign_encode_attr] in *.
  destruct (callsign_encode d) as [ed|] eqn:Ed; [|discriminate].
  destruct (callsign_encode s) as [es|] eqn:Es; [|discriminate].
  destruct (callsign_encode_ok_shape d ed Ed) as [Ld Pd].
  destruct (callsign_encode_ok_shape s es Es) as [Ls Ps].
  destruct (mapM_callsign_encode _ Hg) as (g & -> & Lg & Pg).
  cbn [bind]. unfold or_last.
  destruct (ed ++ es ++ List.concat g) as [|x l] eqn:E.
  - destruct ed; [discriminate Ld | discriminate E].
  - rewrite <- E. eexists. split; [reflexivity|].
    assert (forallb (fun b => negb (low_bit b)) (ed ++ es ++ List.concat g)
            = true) as P by (now rewrite !forallb_app, Pd, Ps, Pg).
    assert (List.length (ed ++ es ++ List.concat g)
            = (7 * (2 + List.length (digipeaters self)))%nat) as L
        by (rewrite !length_app, Ld, Ls, Lg; lia).
    repeat split.
    + rewrite length_app. cbn [List.length].
      assert (ed ++ es ++ List.concat g <> []) as Hne by (rewrite E; discriminate).
      rewrite (app_removelast_last zero Hne) in L at 1.
      rewrite length_app in L. exact L.
    + rewrite last_last. apply low_bit_or1.
    + rewrite removelast_last. now apply forallb_removelast.
Qed.

(** The property on the UI frame APRS / N0CALL / WIDE1-1, WIDE2-1. *)
Lemma encoded_addresses_low_bits_witness :
  exists a,
    encoded_addresses ui_example = Ok a
    /\ List.length a = (7 * (2 + 2))%nat
    /\ low_bit (last a zero) = true
    /\ forallb (fun b => negb (low_bit b)) (removelast a) = true.
Proof.
  apply (encoded_addresses_low_bits ui_example); reflexivity.
Defined.

End Addresses.

(** ** Parsing *)

Section Parse.

Lemma search_from_length (l p : list bool) :
  forall i, List.length (search_from i l p) = occurrences p l.
Proof.
  induction l as [|x l IH]; intros i; [reflexivity|].
  cbn [search_from occurrences]. rewrite length_app, IH.
  now destruct (starts_with p (x :: l)).
Qed.

Lemma starts_with_prefix (p : list bool) :
  forall l, starts_with p l = true <-> exists post, l = p ++ post.
Proof.
  induction p as [|a p IH]; intros l; simpl.
  - split; [intros _; now exists l | auto].
  - destruct l as [|b l].
    + split; [discriminate | intros [post H]; discriminate].
    + rewrite andb_true_iff, IH. split.
      * intros [E [post ->]]. apply eqb_prop in E. subst. now exists post.
      * intros [post [= -> ->]]. split; [apply eqb_reflx | now exists post].
Qed.

Lemma occurs_cons (p : list bool) (x : bool) (l : list bool) (i : nat) :
  occurs p (x :: l) (S i) <-> occurs p l i.
Proof.
  split.
  - intros (pre & post & E & L). destruct pre as [|y pre]; [discriminate|].
    injection E as -> ->. injection L as L. now exists pre, post.
  - intros (pre & post & -> & L). exists (x :: pre), post.
    split; [reflexivity | simpl; now rewrite L].
Qed.

Lemma occurs_head (p l : list bool) :
  occurs p l 0 -> starts_with p l = true.
Proof.
  intros (pre & post & -> & L). destruct pre; [|discriminate].
  apply starts_with_prefix. now exists post.
Qed.

Lemma occurs_counted (p l : list bool) :
  p <> [] -> forall i, occurs p l i -> (1 <= occurrences p l)%nat.
Proof.
  intros Hp. induction l as [|x l IH]; intros i H.
  - destruct H as (pre & post & E & _).
    destruct pre; [destruct p; [congruence | discriminate] | discriminate].
  - cbn [occurrences]. destruct i as [|i].
    + rewrite (occurs_head _ _ H). lia.
    + apply occurs_cons in H. apply IH in H. lia.
Qed.

(** [occurrences] counts the occurrences: two distinct positions at which
    the pattern occurs make it at least two. *)
Lemma occurs_twice (p l : list bool) :
  p <> [] ->
  forall i j, (i < j)%nat -> occurs p l i -> occurs p l j ->
              (2 <= occurrences p l)%nat.
Proof.
  intros Hp. induction l as [|x l IH]; intros i j Hij Hi Hj.
  - destruct Hi as (pre & post & E & _).
    destruct pre; [destruct p; [congruence | discriminate] | discriminate].
  - cbn [occurrences]. destruct j as [|j]; [lia|].
    apply occurs_cons in Hj. destruct i as [|i].
    + rewrite (occurs_head _ _ Hi).
      pose proof (occurs_counted p l Hp j Hj). lia.
    + apply occurs_cons in Hi.
      assert (i < j)%nat as Hlt by lia.
      pose proof (IH i j Hlt Hi Hj). lia.
Qed.

(** With fewer than two flags, one of [flag_loc[0]], [flag_loc[1]] raises
    IndexError. *)
Lemma parse_try_few_flags (self : AX25) (data : bitarray) :
  (occurrences (bits (frombytes (bitarray_new little) (flag self)))
               (bits data) < 2)%nat ->
  parse_try self data = Raise IndexError.
Proof.
  intros H. unfold parse_try, search.
  rewrite <- (search_from_length _ _ 0) in H.
  destruct (search_from 0 (bits data) _) as [|a [|b l]]; cbn [List.length] in H.
  - reflexivity.
  - reflexivity.
  - lia.
Qed.

Lemma last_default {A : Type} (l : list A) (x d d' : A) :
  last (x :: l) d = last (x :: l) d'.
Proof.
  revert x. induction l as [|y l IH]; intros x; [reflexivity|].
  change (last (y :: l) d = last (y :: l) d'). apply IH.
Qed.

(** The marker test compares a [bytes] slice with a [str]: it never
    succeeds, and the loop leaves [n] at the last value of the range. *)
Lemma marker_loop_last (bits_bytes : bytes) (ns : list Z) :
  forall n, marker_loop bits_bytes ns n = last (map Some ns) n.
Proof.
  induction ns as [|k ns IH]; intros n; [reflexivity|].
  cbn [marker_loop map]. change (py_eq (VBytes _) marker) with false.
  cbv iota. rewrite IH. destruct ns as [|k' ns]; [reflexivity|].
  cbn [map]. change (last (Some k :: Some k' :: map Some ns) n)
    with (last (Some k' :: map Some ns) n).
  apply last_default.
Qed.

Lemma py_range_last (a b : Z) (n : option Z) :
  a < b -> last (map Some (py_range a b)) n = Some (b - 1).
Proof.
  intros H. unfold py_range.
  destruct (Z.to_nat (b - a)) as [|k] eqn:E; [lia|].
  rewrite seq_S, !map_app. cbn [map]. rewrite last_last.
  f_equal. simpl. lia.
Qed.

Lemma py_range_empty (a b : Z) : b <= a -> py_range a b = [].
Proof.
  intros H. unfold py_range. now replace (Z.to_nat (b - a)) with 0%nat by lia.
Qed.

Lemma tobytes_bits_length (e : endianness) (n : nat) :
  forall l, (List.length l <= n)%nat ->
            (List.length l <= 8 * List.length (tobytes_bits e l))%nat.
Proof.
  induction n as [|n IH]; intros l H.
  - destruct l; [simpl; lia | simpl in H; lia].
  - destruct l as [|b0 [|b1 [|b2 [|b3 [|b4 [|b5 [|b6 [|b7 l]]]]]]]];
      try (simpl; lia).
    cbn [tobytes_bits List.length] in *.
    assert (List.length l <= n)%nat as Hl by lia.
    apply IH in Hl. lia.
Qed.

Lemma py_slice_tail_empty {A : Type} (l : list A) (lo : Z) :
  len l <= lo -> py_slice l (Some lo) (Some (-16)) = [].
Proof.
  unfold py_slice, slice_bound, len. intros H.
  change (-16 <? 0) with true. cbv iota.
  set (n := Z.of_nat (List.length l)) in *.
  assert (0 <= n) by (unfold n; lia).
  destruct (Z.ltb_spec lo 0) as [L|L]; [lia|].
  replace (Z.to_nat (Z.max 0 (Z.min n (-16 + n)) - Z.max 0 (Z.min n lo)))
    with 0%nat by lia.
  reflexivity.
Qed.

Lemma payload_empty (a : bitarray) (lo : Z) :
  len (bits a) <= lo ->
  tobytes (bitarray_slice a (Some lo) (Some (-16))) = [].
Proof.
  intros H. unfold tobytes, bitarray_slice. cbn [bits endian].
  now rewrite py_slice_tail_empty.
Qed.

Lemma digilen_zero (n : Z) :
  QArith_base.Qeq_bool
    (QArith_base.Qdiv (QArith_base.inject_Z ((n - 14) * 8))
                      (QArith_base.inject_Z 7))
    (QArith_base.inject_Z 0) = true ->
  n = 14.
Proof.
  unfold QArith_base.Qeq_bool, QArith_base.Qdiv, QArith_base.Qmult,
    QArith_base.Qinv, QArith_base.inject_Z. simpl.
  intros H. apply Z.eqb_eq in H. lia.
Qed.

Lemma getitem_error {A : Type} (l : list A) (i : nat) (e : exn) :
  getitem l i = Raise e -> e = IndexError.
Proof.
  unfold getitem. destruct (nth_error l i); [discriminate|].
  now intros [= <-].
Qed.

(** Whatever position the marker loop leaves in [n], a frame with a
    digipeater field ([n] other than 14) is not decoded: the name
    [digipeaters] is read but only [digipeters] was assigned. *)
Lemma parse_split_digipeaters_unbound
      (self : AX25) (bits_unstuff : bitarray) (bits_bytes : bytes)
      (h_dest h_src : bitarray) (n : Z) :
  n <> 14 ->
  parse_split self bits_unstuff bits_bytes h_dest h_src n
  = if n =? len bits_bytes - 1 then Ok (set_no_decode self)
    else Raise NameError.
Proof.
  intros H. unfold parse_split. cbv zeta.
  destruct (n =? len bits_bytes - 1); [reflexivity|].
  destruct (QArith_base.Qeq_bool _ _) eqn:Q; [|reflexivity].
  apply digilen_zero in Q. contradiction.
Qed.

(** The three ways the [try] block ends: an IndexError (a flag is missing),
    a NameError ([n] or [digipeaters] is unbound), or the four assignments,
    which are reached only when the unstuffed body fills exactly 16 bytes and
    then store an empty info and an empty tuple. *)
Lemma parse_try_cases (self : AX25) (data : bitarray) :
  parse_try self data = Raise IndexError
  \/ parse_try self data = Raise NameError
  \/ exists d s,
       parse_try self data
       = Ok (set_fields self (VStr d) (VStr s) (VBytes []) (VTuple [])).
Proof.
  unfold parse_try. cbv zeta.
  destruct (getitem _ 0) as [loc0|e0] eqn:E0; cbn [bind];
    [|left; now rewrite (getitem_error _ _ _ E0)].
  destruct (getitem _ 1) as [loc1|e1] eqn:E1; cbn [bind];
    [|left; now rewrite (getitem_error _ _ _ E1)].
  set (bu := bit_unstuff _).
  set (L := len (tobytes bu)).
  rewrite marker_loop_last.
  destruct (Z_lt_le_dec 14 (L - 1)) as [H|H].
  - rewrite py_range_last by assumption. cbn [read_var bind].
    unfold parse_split. cbv zeta. fold L.
    replace (L - 1 - 1 =? L - 1) with false by (symmetry; apply Z.eqb_neq; lia).
    destruct (QArith_base.Qeq_bool _ _) eqn:Q; cbn [read_var bind].
    + right. right. apply digilen_zero in Q.
      rewrite payload_empty.
      * eexists. eexists. reflexivity.
      * pose proof (tobytes_bits_length (endian bu) _ (bits bu) (le_n _)) as Hb.
        unfold L, tobytes, len in Q. unfold len. lia.
    + right. left. reflexivity.
  - rewrite py_range_empty by assumption. right. left. reflexivity.
Qed.

(** Whatever the input, [parse] stores either the sentinel in all four
    attributes, or two decoded addresses with an empty info and an empty
    tuple of digipeaters. *)
Lemma parse_outcomes (self : AX25) (data : bitarray) :
  parse self data = set_no_decode self
  \/ exists d s,
       parse self data
       = set_fields self (VStr d) (VStr s) (VBytes []) (VTuple []).
Proof.
  unfold parse.
  destruct (parse_try_cases self data) as [E|[E|(d & s & E)]]; rewrite E.
  - now left.
  - now left.
  - right. now exists d, s.
Qed.

(** The test [n == len(bits_bytes) - 1] is never true after the loop, whose
    range ends at [len(bits_bytes) - 2]: a body of sixteen zero bytes, which
    holds no marker, is decoded into two addresses of NUL characters. *)
Example parse_sixteen_bytes_without_marker :
  parse ui_example
        (BitArray little (flag_bits ++ repeat false 128 ++ flag_bits))
  = set_fields ui_example
      (VStr (string_of_list_ascii (repeat zero 7)))
      (VStr (string_of_list_ascii (repeat zero 7)))
      (VBytes []) (VTuple []).
Proof. vm_compute. reflexivity. Qed.

Lemma marker_test_never_true (bits_bytes : bytes) (n : Z) :
  marker_loop bits_bytes (py_range 14 (len bits_bytes - 1)) None = Some n ->
  n = len bits_bytes - 2.
Proof.
  rewrite marker_loop_last.
  destruct (Z_lt_le_dec 14 (len bits_bytes - 1)) as [H|H].
  - rewrite py_range_last by assumption. intros [= <-]. lia.
  - rewrite py_range_empty by assumption. discriminate.
Qed.

(** C8 (what the code does): the test for a missing marker,
    [n == len(bits_bytes) - 1], compares with a value the loop variable
    never takes (the range ends at [len(bits_bytes) - 2]).  On a bit
    sequence with two flags around sixteen bytes that hold two encoded
    addresses and no marker 03 F0, parse therefore does not store "no
    decode": it returns with destination "APRS  0", source "N0CALL0", an
    empty info and an empty tuple of digipeaters, whatever frame object it is
    called on. *)
Theorem parse_marker_not_found_decoded
        (d s : bytes) (path : list bytes) (i : bytes) :
  search wire_without_marker (BitArray little flag_bits) = [0; 136]
  /\ tobytes (bit_unstuff (py_slice (bits wire_without_marker)
                                    (Some 8) (Some 136)))
     = body_without_marker
  /\ map ord (py_slice body_without_marker (Some 14) (Some 16)) = [0x12; 0x34]
  /\ marker_loop body_without_marker
                 (py_range 14 (len body_without_marker - 1)) None
     = Some (len body_without_marker - 2)
  /\ destination (parse (UI_init d s path i) wire_without_marker)
     = VStr "APRS  0"
  /\ source (parse (UI_init d s path i) wire_without_marker)
     = VStr "N0CALL0"
  /\ info (parse (UI_init d s path i) wire_without_marker) = VBytes []
  /\ digis (parse (UI_init d s path i) wire_without_marker)
     = Some (VTuple [])
  /\ destination (parse (UI_init d s path i) wire_without_marker)
     <> VStr "no decode".
Proof.
  repeat split; try (vm_compute; reflexivity).
  vm_compute. discriminate.
Qed.

(** X25: with fewer than two occurrences of the flag pattern 0x7E in the
    input, and whenever the decoding block raises, parse returns with the
    string "no decode" in each of destination, source, info and digis. *)
Theorem parse_few_flags_no_decode (self : AX25) (data : bitarray) :
  (flag self = [byte_of_Z 0x7e] ->
   (occurrences flag_bits (bits data) < 2)%nat ->
   destination (parse self data) = VStr "no decode"
   /\ source (parse self data) = VStr "no decode"
   /\ info (parse self data) = VStr "no decode"
   /\ digis (parse self data) = Some (VStr "no decode"))
  /\ (forall e, parse_try self data = Raise e ->
       destination (parse self data) = VStr "no decode"
       /\ source (parse self data) = VStr "no decode"
       /\ info (parse self data) = VStr "no decode"
       /\ digis (parse self data) = Some (VStr "no decode")).
Proof.
  split.
  - intros Hf Ho. unfold parse. rewrite parse_try_few_flags.
    + repeat split.
    + rewrite Hf. exact Ho.
  - intros e He. unfold parse. rewrite He. repeat split.
Qed.

(** The sentinel on a bit sequence that holds a single flag. *)
Lemma parse_few_flags_no_decode_witness :
  destination
    (parse ui_example (BitArray little (flag_bits ++ [true; false; true])))
  = VStr "no decode"
  /\ source
       (parse ui_example (BitArray little (flag_bits ++ [true; false; true])))
     = VStr "no decode"
  /\ info
       (parse ui_example (BitArray little (flag_bits ++ [true; false; true])))
     = VStr "no decode"
  /\ digis
       (parse ui_example (BitArray little (flag_bits ++ [true; false; true])))
     = Some (VStr "no decode").
Proof.
  apply (parse_few_flags_no_decode ui_example
           (BitArray little (flag_bits ++ [true; false; true]))).
  - reflexivity.
  - vm_compute. lia.
Defined.

(** C1 (what the code does): the UI frame APRS / N0CALL / WIDE1-1, WIDE2-1
    with info "!" is serialized by unparse into 281 bits delimited by two
    flags, whose unstuffed body holds the addresses, the marker 03 F0 at
    byte 28, the info and the FCS; parse of these bits stores "no decode" in
    destination, source, info and digis, and fcs_validate on the body ends
    with a TypeError. *)
Theorem parse_unparse_ui_example :
  exists wire,
    unparse ui_example = Ok wire
    /\ search wire (BitArray little flag_bits) = [0; 273]
    /\ map ord (py_slice
                  (tobytes (bit_unstuff (py_slice (bits wire) (Some 8) (Some 273))))
                  (Some 28) (Some 31))
       = [0x03; 0xf0; 0x21]
    /\ destination (parse ui_example wire) = VStr "no decode"
    /\ source (parse ui_example wire) = VStr "no decode"
    /\ info (parse ui_example wire) = VStr "no decode"
    /\ digis (parse ui_example wire) = Some (VStr "no decode")
    /\ fcs_validate (bits (bit_unstuff (py_slice (bits wire) (Some 8) (Some 273))))
       = ([], Some TypeError).
Proof.
  eexists. split; [vm_compute; reflexivity|].
  repeat split; vm_compute; reflexivity.
Qed.

End Parse.

(** * Further properties of the code *)

(** ** bit_stuff and bit_unstuff: size, fixed points, the skipped bit *)

Section StuffingSize.

Lemma count_after_range (data : list bool) :
  forall count, 0 <= count <= 4 -> 0 <= count_after count data <= 4.
Proof.
  induction data as [|bit data IH]; intros count H; simpl; [exact H|].
  destruct bit.
  - destruct (Z.eqb_spec (count + 1) 5); apply IH; lia.
  - apply IH. simpl. lia.
Qed.

Lemma bit_stuff_loop_bounds (data : list bool) :
  forall count,
    0 <= count <= 4 ->
    (List.length data <= List.length (bit_stuff_loop count data))%nat
    /\ 5 * len (bit_stuff_loop count data) <= 6 * len data + count.
Proof.
  unfold len.
  induction data as [|bit data IH]; intros count H; cbn [bit_stuff_loop].
  - simpl. lia.
  - destruct bit.
    + destruct (Z.eqb_spec (count + 1) 5) as [E|E].
      * destruct (IH 0 ltac:(lia)) as [I1 I2]. cbn [List.length]. lia.
      * destruct (IH (count + 1) ltac:(lia)) as [I1 I2]. cbn [List.length]. lia.
    + change (0 =? 5) with false. cbv iota.
      destruct (IH 0 ltac:(lia)) as [I1 I2]. cbn [List.length]. lia.
Qed.

(** X1: Stuffing never shortens its input and adds at most one bit for every
    five bits of input. *)
Theorem bit_stuff_length_bounds (B : list bool) :
  (List.length B <= List.length (bit_stuff B))%nat
  /\ (5 * List.length (bit_stuff B) <= 6 * List.length B)%nat.
Proof.
  destruct (bit_stuff_loop_bounds B 0 ltac:(lia)) as [H1 H2].
  unfold bit_stuff, len in *. split; [exact H1 | lia].
Qed.

Lemma has_run_app_r (n : nat) (pre l : list bool) :
  has_run n l -> has_run n (pre ++ l).
Proof.
  intros (a & b & ->). exists (pre ++ a), b. now rewrite <- app_assoc.
Qed.

Lemma repeat_true_snoc (c : nat) (l : list bool) :
  repeat true c ++ true :: l = repeat true (S c) ++ l.
Proof.
  induction c as [|c IH]; [reflexivity|].
  simpl in *. now rewrite IH.
Qed.

Lemma bit_stuff_loop_id (data : list bool) :
  forall c : nat,
    (c <= 4)%nat ->
    ~ has_run 5 (repeat true c ++ data) ->
    bit_stuff_loop (Z.of_nat c) data = data.
Proof.
  induction data as [|bit data IH]; intros c Hc Hr; [reflexivity|].
  cbn [bit_stuff_loop]. destruct bit.
  - destruct (Z.eqb_spec (Z.of_nat c + 1) 5) as [E|E].
    + exfalso. apply Hr. exists [], data.
      rewrite repeat_true_snoc. replace (S c) with 5%nat by lia. reflexivity.
    + f_equal. replace (Z.of_nat c + 1) with (Z.of_nat (S c)) by lia.
      apply IH; [lia|]. now rewrite <- repeat_true_snoc.
  - change (0 =? 5) with false. cbv iota. f_equal.
    apply (IH 0%nat); [lia|].
    intros H. apply Hr.
    apply (has_run_app_r 5 (repeat true c ++ [false])) in H.
    now rewrite <- app_assoc in H.
Qed.

Lemma bit_stuff_loop_grows (post : list bool) (count : Z) :
  0 <= count <= 4 ->
  (List.length (repeat true 5 ++ post)
   < List.length (bit_stuff_loop count (repeat true 5 ++ post)))%nat.
Proof.
  intros H.
  assert (count = 0 \/ count = 1 \/ count = 2 \/ count = 3 \/ count = 4)
    as [->|[->|[->|[->| ->]]]] by lia;
    cbn [repeat app bit_stuff_loop Z.add Z.eqb Pos.add Pos.succ Pos.eqb
         List.length];
    match goal with
    | |- context [bit_stuff_loop ?c ?l] =>
        destruct (bit_stuff_loop_bounds l c ltac:(lia)) as [I _]
    end; cbn [List.length] in *; lia.
Qed.

(** X2: The inputs that stuffing leaves unchanged are exactly those without
    five consecutive 1-bits. *)
Theorem bit_stuff_fixed_point (B : list bool) :
  bit_stuff B = B <-> ~ has_run 5 B.
Proof.
  split.
  - intros E (pre & post & ->). unfold bit_stuff in E.
    rewrite bit_stuff_loop_app in E.
    pose proof (count_after_range pre 0 ltac:(lia)) as Hc.
    pose proof (bit_stuff_loop_grows post _ Hc) as Hg.
    destruct (bit_stuff_loop_bounds pre 0 ltac:(lia)) as [Hp _].
    apply (f_equal (@List.length bool)) in E.
    rewrite !length_app in E. rewrite !length_app in Hg. lia.
  - intros H. apply (bit_stuff_loop_id B 0); [lia | exact H].
Qed.

Lemma unstuff_state_range (data : list bool) :
  forall count skip,
    0 <= count <= 4 -> 0 <= fst (unstuff_state count skip data) <= 4.
Proof.
  induction data as [|bit data IH]; intros count skip H; [exact H|].
  cbn [unstuff_state]. destruct skip; cbn [negb]; [now apply IH|].
  destruct bit.
  - destruct (Z.eqb_spec (count + 1) 5); apply IH; lia.
  - change (0 =? 5) with false. cbv iota. apply IH. lia.
Qed.

Lemma bit_unstuff_loop_app (X Y : list bool) :
  forall count skip,
    bit_unstuff_loop count skip [] (X ++ Y)
    = bit_unstuff_loop count skip [] X
        ++ bit_unstuff_loop (fst (unstuff_state count skip X))
                            (snd (unstuff_state count skip X)) [] Y.
Proof.
  induction X as [|bit X IH]; intros count skip; [reflexivity|].
  cbn [app bit_unstuff_loop unstuff_state].
  destruct skip; cbn [negb]; [apply IH|].
  destruct (_ =? 5).
  - rewrite (bit_unstuff_loop_acc (X ++ Y)), (bit_unstuff_loop_acc X), IH.
    now rewrite app_assoc.
  - rewrite (bit_unstuff_loop_acc (X ++ Y)), (bit_unstuff_loop_acc X), IH.
    now rewrite app_assoc.
Qed.

Lemma bit_unstuff_loop_fifth_one (count : Z) (b : bool) (post : list bool) :
  0 <= count <= 4 ->
  bit_unstuff_loop count false [] (repeat true (Z.to_nat (5 - count)) ++ b :: post)
  = repeat true (Z.to_nat (5 - count)) ++ bit_unstuff_loop 0 false [] post.
Proof.
  intros H.
  assert (count = 0 \/ count = 1 \/ count = 2 \/ count = 3 \/ count = 4)
    as [->|[->|[->|[->| ->]]]] by lia;
    simpl; now rewrite (bit_unstuff_loop_acc post _ _ (_ :: _)).
Qed.

(** X3: What unstuffing does after five 1-bits, anywhere in its input: when
    the loop has counted [count] 1-bits after the prefix [pre] and is not
    skipping, the 1-bits that bring the counter to five are kept, the bit
    after them is dropped whatever its value, and the rest is unstuffed from
    a fresh counter.  A sixth 1-bit is thus removed like a stuffed 0. *)
Theorem bit_unstuff_skips_any_bit
        (pre post : list bool) (count : Z) (b : bool) :
  unstuff_state 0 false pre = (count, false) ->
  bits (bit_unstuff (pre ++ repeat true (Z.to_nat (5 - count)) ++ b :: post))
  = bits (bit_unstuff pre)
      ++ repeat true (Z.to_nat (5 - count))
      ++ bits (bit_unstuff post).
Proof.
  intros H.
  pose proof (unstuff_state_range pre 0 false ltac:(lia)) as R.
  unfold bit_unstuff. cbn [bits bitarray_new].
  rewrite bit_unstuff_loop_app, H in *. cbn [fst snd] in *.
  now rewrite bit_unstuff_loop_fifth_one.
Qed.

(** The dropped bit after a prefix that leaves one counted 1-bit: the four
    1-bits that follow are kept and the 1-bit after them is removed. *)
Lemma bit_unstuff_skips_any_bit_witness :
  bits (bit_unstuff ([true; false; true]
                       ++ repeat true 4 ++ true :: [false; true]))
  = bits (bit_unstuff [true; false; true])
      ++ repeat true 4 ++ bits (bit_unstuff [false; true]).
Proof.
  apply (bit_unstuff_skips_any_bit [true; false; true] [false; true] 1 true).
  reflexivity.
Defined.

Lemma bit_unstuff_loop_bounds (data : list bool) :
  forall count skip,
    0 <= count <= 4 -> (skip = true -> count = 0) ->
    len (bit_unstuff_loop count skip [] data) <= len data
    /\ 5 * len data
       <= 6 * len (bit_unstuff_loop count skip [] data)
          + (if skip then 5 else count).
Proof.
  unfold len.
  induction data as [|bit data IH]; intros count skip H Hs;
    cbn [bit_unstuff_loop].
  - simpl. destruct skip; lia.
  - destruct skip; cbn [negb].
    + rewrite (Hs eq_refl).
      destruct (IH 0 false ltac:(lia) ltac:(discriminate)) as [I1 I2].
      cbn [List.length]. lia.
    + cbn [app]. destruct bit.
      * destruct (Z.eqb_spec (count + 1) 5) as [E|E];
          rewrite (bit_unstuff_loop_acc data _ _ [true]), length_app;
          cbn [List.length].
        -- destruct (IH 0 true ltac:(lia) ltac:(reflexivity)) as [I1 I2]. lia.
        -- destruct (IH (count + 1) false ltac:(lia) ltac:(discriminate))
             as [I1 I2]. lia.
      * change (0 =? 5) with false. cbv iota.
        rewrite (bit_unstuff_loop_acc data _ _ [false]), length_app.
        cbn [List.length].
        destruct (IH 0 false ltac:(lia) ltac:(discriminate)) as [I1 I2]. lia.
Qed.

(** X4: Unstuffing never lengthens its input and removes at most one bit out of
    six. *)
Theorem bit_unstuff_length_bounds (X : list bool) :
  (List.length (bits (bit_unstuff X)) <= List.length X)%nat
  /\ (5 * List.length X <= 6 * List.length (bits (bit_unstuff X)))%nat.
Proof.
  destruct (bit_unstuff_loop_bounds X 0 false ltac:(lia) ltac:(discriminate))
    as [H1 H2].
  unfold bit_unstuff, len in *. cbn [bits bitarray_new] in *. lia.
Qed.

End StuffingSize.

(** ** The FCS engine as a checksum *)

Section Checksum.

Lemma all_from_spec (fuel : nat) (f : Z -> bool) :
  forall z, all_from fuel z f = true ->
            forall x, z <= x < z + Z.of_nat fuel -> f x = true.
Proof.
  induction fuel as [|k IH]; intros z H x Hx; [lia|].
  cbn [all_from] in H. apply andb_prop in H as [H1 H2].
  destruct (Z.eq_dec x z) as [->|N]; [exact H1|].
  apply (IH (z + 1) H2). lia.
Qed.

Lemma fold_update_bit_range (data : list bool) :
  forall s, 0 <= s < 65536 -> 0 <= fold_left update_bit data s < 65536.
Proof.
  induction data as [|bit data IH]; intros s Hs; [exact Hs|].
  cbn [fold_left]. apply IH. now apply update_bit_range.
Qed.

(** X5: The engine keeps a 16-bit state over any number of bits. *)
Theorem fcs_state_16_bits (data : list bool) :
  0 <= fold_left update_bit data FCS_init < 2 ^ 16.
Proof.
  change (2 ^ 16) with 65536.
  apply fold_update_bit_range. unfold FCS_init. lia.
Qed.

Lemma update_byte_bits (fcs : Z) (c : byte) :
  update_byte fcs (ord c) = fold_left update_bit (byte_bits big c) fcs.
Proof.
  unfold update_byte. cbn [fold_left].
  assert (forall i, 0 <= i < 8 ->
            (Z.land (Z.shiftr (ord c) i) 0x01 =? 1)
            = nth (Z.to_nat i) (byte_bits little c) false) as T.
  { intros i Hi.
    assert (i = 0 \/ i = 1 \/ i = 2 \/ i = 3 \/ i = 4 \/ i = 5 \/ i = 6 \/ i = 7)
      as [->|[->|[->|[->|[->|[->|[->| ->]]]]]]] by lia;
      destruct c as [[] [] [] [] [] [] [] []]; reflexivity. }
  rewrite !T by lia. now destruct c.
Qed.

(** X6: [FCS.update] on a [str]: every character is fed to [update_bit] most
    significant bit first, that is, in the bit order of a big-endian
    bitarray. *)
Theorem update_str_big_endian (fcs : Z) (s : string) :
  update fcs (VStr s)
  = Ok (fold_left update_bit
                  (bits (frombytes (bitarray_new big) (list_ascii_of_string s)))
                  fcs).
Proof.
  unfold update, frombytes. cbn [py_iter bind bits bitarray_new endian app].
  revert fcs. induction s as [|c s IH]; intros fcs; [reflexivity|].
  cbn [list_ascii_of_string map update_items py_ord bind flat_map].
  rewrite IH, fold_left_app, update_byte_bits. reflexivity.
Qed.

Lemma fcs_loop_app (data : list bool) :
  forall st,
    fcs_loop st data = data ++ bits_of (digest (fold_left update_bit data st)).
Proof.
  induction data as [|bit data IH]; intros st; [reflexivity|].
  cbn [fcs_loop fold_left app]. now rewrite IH.
Qed.

(** X7: The generator [fcs] yields its input unchanged, followed by the sixteen
    bits of the digest of the state reached on the input, least significant
    bit of each byte first. *)
Theorem fcs_appends_digest (data : list bool) :
  fcs data = data ++ bits_of (digest (fold_left update_bit data FCS_init))
  /\ List.length (fcs data) = (List.length data + 16)%nat.
Proof.
  split; [apply fcs_loop_app | apply fcs_loop_length].
Qed.

Lemma residue_from_state (s : Z) :
  0 <= s < 65536 ->
  fold_left update_bit (bits_of (digest s)) s = fcs_residue.
Proof.
  intros H.
  assert (all_from (Z.to_nat 65536) 0
            (fun s => fold_left update_bit (bits_of (digest s)) s =? fcs_residue)
          = true) as A by (vm_compute; reflexivity).
  apply Z.eqb_eq. apply (all_from_spec _ _ 0 A). lia.
Qed.

Lemma residue_of_fcs (data : list bool) :
  fold_left update_bit (fcs data) FCS_init = fcs_residue.
Proof.
  unfold fcs. rewrite fcs_loop_app, fold_left_app.
  apply residue_from_state. apply fold_update_bit_range.
  unfold FCS_init. lia.
Qed.

(** X8: The check a receiver makes: running the engine over the output of
    [fcs], data and trailer, always ends in the state 0xF0B8. *)
Theorem fcs_residue_constant (data : list bool) :
  fold_left update_bit (fcs data) FCS_init = 0xf0b8.
Proof. apply residue_of_fcs. Qed.

Lemma update_bit_inv_correct (s : Z) (bit : bool) :
  0 <= s < 65536 -> update_bit_inv (update_bit s bit) bit = s.
Proof.
  intros H.
  assert (all_from (Z.to_nat 65536) 0
            (fun s => (update_bit_inv (update_bit s true) true =? s)
                      && (update_bit_inv (update_bit s false) false =? s))
          = true) as A by (vm_compute; reflexivity).
  pose proof (all_from_spec _ _ 0 A s ltac:(lia)) as B. cbv beta in B.
  apply andb_prop in B as [B1 B2]. apply Z.eqb_eq in B1, B2.
  now destruct bit.
Qed.

Lemma update_bit_flip (s : Z) (bit : bool) :
  update_bit s bit <> update_bit s (negb bit).
Proof.
  unfold update_bit. cbv zeta.
  assert (Z.lxor (Z.shiftr s 1) 0x8408 <> Z.shiftr s 1) as N.
  { intros E. apply (f_equal (Z.lxor (Z.shiftr s 1))) in E.
    rewrite <- Z.lxor_assoc, Z.lxor_nilpotent, Z.lxor_0_l in E.
    discriminate E. }
  destruct (Z.land s 1 =? 1), bit; cbn [negb Bool.eqb]; congruence.
Qed.

Lemma fold_update_bit_inj (data : list bool) :
  forall s1 s2,
    0 <= s1 < 65536 -> 0 <= s2 < 65536 ->
    fold_left update_bit data s1 = fold_left update_bit data s2 -> s1 = s2.
Proof.
  induction data as [|bit data IH]; intros s1 s2 H1 H2 E; [exact E|].
  cbn [fold_left] in E.
  apply IH in E; try now apply update_bit_range.
  rewrite <- (update_bit_inv_correct s1 bit H1),
          <- (update_bit_inv_correct s2 bit H2).
  now rewrite E.
Qed.

Lemma digest_inj (s1 s2 : Z) :
  0 <= s1 < 65536 -> 0 <= s2 < 65536 -> digest s1 = digest s2 -> s1 = s2.
Proof.
  intros H1 H2 E. apply (f_equal (map ord)) in E.
  unfold digest in E. rewrite !lnot_mod_65536 in E.
  rewrite !Z.mod_small in E by lia.
  rewrite !struct_pack_H_bytes in E by lia.
  pose proof (f_equal (fun l => nth 0 l 0) E) as E1.
  pose proof (f_equal (fun l => nth 1 l 0) E) as E2.
  cbn [nth] in E1, E2.
  pose proof (Z.div_mod (65535 - s1) 256 ltac:(lia)).
  pose proof (Z.div_mod (65535 - s2) 256 ltac:(lia)). lia.
Qed.

Lemma fold_flip_neq (pre post : list bool) (bit : bool) :
  fold_left update_bit (pre ++ bit :: post) FCS_init
  <> fold_left update_bit (pre ++ negb bit :: post) FCS_init.
Proof.
  assert (0 <= fold_left update_bit pre FCS_init < 65536) as Hp
      by (apply fold_update_bit_range; unfold FCS_init; lia).
  rewrite !fold_left_app. cbn [fold_left]. intros E.
  apply fold_update_bit_inj in E; try now apply update_bit_range.
  now apply update_bit_flip in E.
Qed.

(** X9: Inverting one bit anywhere in a bit sequence changes the state the
    engine reaches on it, and therefore the two digest bytes. *)
Theorem fcs_single_bit_flip (pre post : list bool) (bit : bool) :
  fold_left update_bit (pre ++ bit :: post) FCS_init
  <> fold_left update_bit (pre ++ negb bit :: post) FCS_init
  /\ digest (fold_left update_bit (pre ++ bit :: post) FCS_init)
     <> digest (fold_left update_bit (pre ++ negb bit :: post) FCS_init).
Proof.
  pose proof (fold_flip_neq pre post bit) as N.
  split; [exact N|].
  intros E. apply N.
  apply digest_inj in E; [exact E | |];
    apply fold_update_bit_range; unfold FCS_init; lia.
Qed.

(** X10: A stream that differs from an output of [fcs] in exactly one bit, data
    or trailer, does not pass the receiver's check. *)
Theorem fcs_detects_single_bit_error
        (data pre post : list bool) (bit : bool) :
  fcs data = pre ++ bit :: post ->
  fold_left update_bit (pre ++ negb bit :: post) FCS_init <> fcs_residue.
Proof.
  intros E H.
  apply (fold_flip_neq pre post (negb bit)).
  rewrite negb_involutive, H, <- E.
  symmetry. apply residue_of_fcs.
Qed.

(** The detection on the stream of the byte "A" with its first bit
    inverted. *)
Lemma fcs_detects_single_bit_error_witness :
  fold_left update_bit
            (negb true :: tl (fcs (bits_of (bytes_lit "A")))) FCS_init
  <> fcs_residue.
Proof.
  apply (fcs_detects_single_bit_error (bits_of (bytes_lit "A")) []
           (tl (fcs (bits_of (bytes_lit "A")))) true).
  reflexivity.
Defined.

End Checksum.

(** ** Serialization: unparse *)

Section Framing.

Lemma bits_of_app (a b : bytes) : bits_of (a ++ b) = bits_of a ++ bits_of b.
Proof.
  unfold bits_of, frombytes. cbn [bits bitarray_new endian app].
  apply flat_map_app.
Qed.

Lemma flag_bits_eq :
  flag_bits = false :: repeat true 6 ++ [false].
Proof. reflexivity. Qed.

(** Where six 1-bits are excluded, a pattern of 1-bits that would complete
    them cannot start. *)
Lemma ones_do_not_fit (k : nat) :
  forall (T : list bool) (c : nat) (rest X : list bool),
    (6 <= c + S k)%nat ->
    runs_below6 c T = true ->
    starts_with (repeat true (S k) ++ rest) (T ++ false :: X) = false.
Proof.
  induction k as [|k IH]; intros T c rest X Hc Hr.
  - destruct T as [|[] T]; [reflexivity| |reflexivity].
    cbn [runs_below6] in Hr. apply andb_prop in Hr as [Hr _].
    apply Nat.ltb_lt in Hr. lia.
  - destruct T as [|[] T]; [reflexivity| |reflexivity].
    cbn [runs_below6] in Hr. apply andb_prop in Hr as [_ Hr].
    change (starts_with (repeat true (S k) ++ rest) (T ++ false :: X) = false).
    apply (IH T (S c)); [lia | exact Hr].
Qed.

Lemma flag_not_inside (T : list bool) (c : nat) :
  T <> [] -> runs_below6 c T = true ->
  starts_with flag_bits (T ++ flag_bits) = false.
Proof.
  intros Hne Hr. destruct T as [|[] T]; [congruence|reflexivity|].
  rewrite flag_bits_eq.
  change (starts_with (repeat true 6 ++ [false])
                      (T ++ false :: repeat true 6 ++ [false]) = false).
  apply (ones_do_not_fit 5 T 0); [lia | exact Hr].
Qed.

Lemma search_stuffed_then_flag (T : list bool) :
  forall c i,
    runs_below6 c T = true ->
    search_from i (T ++ flag_bits) flag_bits = [i + len T].
Proof.
  induction T as [|b T IH]; intros c i Hr.
  - unfold len. cbn [List.length app]. rewrite Z.add_0_r. reflexivity.
  - change ((b :: T) ++ flag_bits) with (b :: (T ++ flag_bits)).
    cbn [search_from].
    change (b :: (T ++ flag_bits)) with ((b :: T) ++ flag_bits).
    rewrite (flag_not_inside (b :: T) c) by (congruence || exact Hr).
    cbn [app].
    assert (exists c', runs_below6 c' T = true) as [c' Hc'].
    { destruct b; cbn [runs_below6] in Hr.
      - apply andb_prop in Hr as [_ Hr]. eauto.
      - eauto. }
    rewrite (IH c' (i + 1) Hc'). unfold len. cbn [List.length].
    f_equal. lia.
Qed.

(** Between two flags, a sequence without six consecutive 1-bits shows the
    flag pattern nowhere else. *)
Lemma search_between_flags (S : list bool) :
  runs_below6 0 S = true ->
  search_from 0 (flag_bits ++ S ++ flag_bits) flag_bits = [0; 8 + len S].
Proof.
  intros Hr.
  assert (search_from 0 (flag_bits ++ S ++ flag_bits) flag_bits
          = 0 :: search_from 7 ((false :: S) ++ flag_bits) flag_bits) as E0
      by reflexivity.
  rewrite E0, (search_stuffed_then_flag (false :: S) 0) by exact Hr.
  unfold len. cbn [List.length]. f_equal. f_equal. lia.
Qed.

Lemma skipn_app_length {A : Type} (a b : list A) :
  skipn (List.length a) (a ++ b) = b.
Proof. induction a as [|x a IH]; [reflexivity | exact IH]. Qed.

Lemma firstn_app_length {A : Type} (a b : list A) :
  firstn (List.length a) (a ++ b) = a.
Proof.
  induction a as [|x a IH]; [reflexivity|]. simpl. now rewrite IH.
Qed.

Lemma py_slice_middle {A : Type} (a b c : list A) :
  py_slice (a ++ b ++ c) (Some (len a)) (Some (len a + len b)) = b.
Proof.
  unfold py_slice, slice_bound, len. rewrite !length_app.
  set (la := List.length a). set (lb := List.length b).
  set (lc := List.length c).
  destruct (Z.ltb_spec (Z.of_nat la) 0) as [L|L]; [lia|].
  destruct (Z.ltb_spec (Z.of_nat la + Z.of_nat lb) 0) as [M|M]; [lia|].
  replace (Z.to_nat (Z.max 0 (Z.min (Z.of_nat (la + (lb + lc)))
                                    (Z.of_nat la))))
    with la by lia.
  replace (Z.to_nat (Z.max 0 (Z.min (Z.of_nat (la + (lb + lc)))
                                    (Z.of_nat la + Z.of_nat lb))
                     - Z.max 0 (Z.min (Z.of_nat (la + (lb + lc)))
                                      (Z.of_nat la)))) with lb by lia.
  unfold la, lb. now rewrite skipn_app_length, firstn_app_length.
Qed.

Lemma runs_below6_bit_stuff (data : list bool) :
  runs_below6 0 (bit_stuff data) = true.
Proof. apply (runs_below6_stuff data 0 0%nat); lia. Qed.

(** What unparse returns when it returns: the frame's header, info and FCS
    digest, as found by its three steps. *)
Lemma unparse_ok_inv (self : AX25) (wire : bitarray) :
  unparse self = Ok wire ->
  exists h i f,
    header self = Ok h /\ info self = VBytes i /\ AX25_fcs self = Ok f
    /\ wire = BitArray little
                (bits_of (flag self)
                   ++ bit_stuff (bits_of (h ++ i ++ f))
                   ++ bits_of (flag self)).
Proof.
  unfold unparse.
  destruct (header self) as [h|] eqn:H; cbn [bind]; [|discriminate].
  destruct (AX25_fcs self) as [f|] eqn:F; cbn [bind]; [|discriminate].
  destruct (info self) as [| |i| |] eqn:I; cbn [as_bytes bind];
    try discriminate.
  intros [= <-]. exists h, i, f. repeat split.
  unfold bitarray_concat, bits_of, frombytes.
  cbn [bits endian bitarray_new app]. now rewrite <- app_assoc.
Qed.

Lemma unparse_body (self : AX25) (wire : bitarray) :
  flag self = [byte_of_Z 0x7e] ->
  unparse self = Ok wire ->
  exists h i f,
    header self = Ok h /\ info self = VBytes i /\ AX25_fcs self = Ok f
    /\ bits wire
       = flag_bits ++ bit_stuff (bits_of (h ++ i ++ f)) ++ flag_bits
    /\ bit_unstuff (py_slice (bits wire) (Some 8)
                             (Some (len (bits wire) - 8)))
       = BitArray little (bits_of (h ++ i ++ f)).
Proof.
  intros Hf Hu.
  destruct (unparse_ok_inv self wire Hu) as (h & i & f & H & I & F & ->).
  rewrite Hf. change (bits_of [byte_of_Z 0x7e]) with flag_bits.
  exists h, i, f. repeat split; try assumption.
  set (S := bit_stuff (bits_of (h ++ i ++ f))).
  assert (len (flag_bits ++ S ++ flag_bits) - 8 = len flag_bits + len S) as L.
  { unfold len. rewrite !length_app. change (List.length flag_bits) with 8%nat.
    lia. }
  cbn [bits]. rewrite L. change 8 with (len flag_bits) at 1.
  rewrite py_slice_middle. unfold S, bit_unstuff, bit_stuff.
  cbn [bits bitarray_new]. now rewrite bit_unstuff_loop_stuff.
Qed.

(** X11: The frame delimiters of a serialized frame: the flag pattern occurs in
    the output of unparse exactly twice, at its first and at its last eight
    bits, and unstuffing the bits in between gives back the bytes of header,
    info and FCS. *)
Theorem unparse_framing (self : AX25) (wire : bitarray) :
  flag self = [byte_of_Z 0x7e] ->
  unparse self = Ok wire ->
  search wire (BitArray little flag_bits) = [0; len (bits wire) - 8]
  /\ exists h i f,
       header self = Ok h /\ info self = VBytes i /\ AX25_fcs self = Ok f
       /\ tobytes (bit_unstuff
                     (py_slice (bits wire) (Some 8)
                               (Some (len (bits wire) - 8))))
          = h ++ i ++ f.
Proof.
  intros Hf Hu.
  destruct (unparse_body self wire Hf Hu) as (h & i & f & H & I & F & B & U).
  split.
  - unfold search. rewrite B. cbn [bits].
    rewrite search_between_flags by apply runs_below6_bit_stuff.
    f_equal. f_equal. unfold len. rewrite !length_app.
    change (List.length flag_bits) with 8%nat. lia.
  - exists h, i, f. repeat split; try assumption.
    rewrite U. apply (tobytes_frombytes little).
Qed.

(** The framing of the UI example frame. *)
Lemma unparse_framing_witness :
  exists wire,
    unparse ui_example = Ok wire
    /\ search wire (BitArray little flag_bits) = [0; len (bits wire) - 8].
Proof.
  destruct (unparse ui_example) as [wire|] eqn:E; [|vm_compute in E; discriminate E].
  exists wire. split; [reflexivity|].
  apply (unparse_framing ui_example wire); [reflexivity | exact E].
Defined.

Lemma AX25_fcs_inv (self : AX25) (h i f : bytes) :
  header self = Ok h -> info self = VBytes i -> AX25_fcs self = Ok f ->
  bits_of (h ++ i ++ f) = fcs (bits_of (h ++ i)).
Proof.
  intros H I. unfold AX25_fcs. rewrite H, I. cbn [bind as_bytes].
  intros [= <-]. unfold fcs. rewrite fcs_loop_app, app_assoc, bits_of_app.
  reflexivity.
Qed.

(** X12: The method [AX25.fcs] and the generator [fcs] agree: the bits unparse
    stuffs between the flags are the output of [fcs] on the bits of header
    and info. *)
Theorem unparse_stuffs_fcs_stream (self : AX25) (wire : bitarray) :
  unparse self = Ok wire ->
  exists h i,
    header self = Ok h /\ info self = VBytes i
    /\ bits wire
       = bits_of (flag self)
           ++ bit_stuff (fcs (bits_of (h ++ i)))
           ++ bits_of (flag self).
Proof.
  intros Hu.
  destruct (unparse_ok_inv self wire Hu) as (h & i & f & H & I & F & ->).
  exists h, i. repeat split; try assumption.
  cbn [bits]. now rewrite (AX25_fcs_inv self h i f H I F).
Qed.

(** The serialized UI example frame is such a stream. *)
Lemma unparse_stuffs_fcs_stream_witness :
  exists wire h i,
    unparse ui_example = Ok wire
    /\ header ui_example = Ok h /\ info ui_example = VBytes i
    /\ bits wire
       = bits_of (flag ui_example)
           ++ bit_stuff (fcs (bits_of (h ++ i)))
           ++ bits_of (flag ui_example).
Proof.
  destruct (unparse ui_example) as [wire|] eqn:E;
    [|vm_compute in E; discriminate E].
  destruct (unparse_stuffs_fcs_stream ui_example wire E) as (h & i & H).
  exists wire, h, i. split; [reflexivity | exact H].
Defined.

(** X13: Every serialized frame is valid for a receiver: running the FCS engine
    over the unstuffed bits between the flags ends in the state 0xF0B8. *)
Theorem unparse_passes_fcs_check (self : AX25) (wire : bitarray) :
  flag self = [byte_of_Z 0x7e] ->
  unparse self = Ok wire ->
  fold_left update_bit
            (bits (bit_unstuff (py_slice (bits wire) (Some 8)
                                         (Some (len (bits wire) - 8)))))
            FCS_init
  = fcs_residue.
Proof.
  intros Hf Hu.
  destruct (unparse_body self wire Hf Hu) as (h & i & f & H & I & F & B & U).
  rewrite U. cbn [bits]. rewrite (AX25_fcs_inv self h i f H I F).
  apply residue_of_fcs.
Qed.

(** The check on the serialized UI example frame. *)
Lemma unparse_passes_fcs_check_witness :
  exists wire,
    unparse ui_example = Ok wire
    /\ fold_left update_bit
                 (bits (bit_unstuff (py_slice (bits wire) (Some 8)
                                              (Some (len (bits wire) - 8)))))
                 FCS_init
       = fcs_residue.
Proof.
  destruct (unparse ui_example) as [wire|] eqn:E;
    [|vm_compute in E; discriminate E].
  exists wire. split; [reflexivity|].
  apply (unparse_passes_fcs_check ui_example wire); [reflexivity | exact E].
Defined.

Lemma is_ok_mapM {A B : Type} (f : A -> result B) (l : list A) :
  is_ok (mapM f l) = forallb (fun x => is_ok (f x)) l.
Proof.
  induction l as [|x l IH]; [reflexivity|].
  cbn [mapM forallb]. destruct (f x); cbn [bind is_ok andb]; [|reflexivity].
  rewrite <- IH. now destruct (mapM f l).
Qed.

Lemma is_ok_or_last (a : bytes) : is_ok (or_last a) = negb (len a =? 0).
Proof. now destruct a. Qed.

Lemma is_ok_encoded_addresses (d s : bytes) (path : list bytes)
      (self : AX25) :
  destination self = VBytes d -> source self = VBytes s ->
  digipeaters self = path ->
  is_ok (encoded_addresses self)
  = is_ok (callsign_encode d) && is_ok (callsign_encode s)
    && forallb (fun g => is_ok (callsign_encode g)) path.
Proof.
  intros Hd Hs Hp. unfold encoded_addresses. rewrite Hd, Hs, Hp.
  cbn [callsign_encode_attr].
  destruct (callsign_encode d) as [ed|] eqn:Ed; cbn [bind is_ok andb];
    [|reflexivity].
  destruct (callsign_encode s) as [es|] eqn:Es; cbn [bind is_ok andb];
    [|reflexivity].
  rewrite <- is_ok_mapM.
  destruct (mapM callsign_encode path) as [g|];
    cbn [bind is_ok]; [|reflexivity].
  destruct (callsign_encode_ok_shape d ed Ed) as [L _].
  destruct ed; [discriminate L | reflexivity].
Qed.

(** X14: A UI frame is serialized exactly when callsign_encode accepts its
    destination, its source and each of its digipeaters; info may be any
    byte string. *)
Theorem unparse_ui_succeeds (d s : bytes) (path : list bytes) (i : bytes) :
  is_ok (unparse (UI_init d s path i))
  = is_ok (callsign_encode d) && is_ok (callsign_encode s)
    && forallb (fun g => is_ok (callsign_encode g)) path.
Proof.
  rewrite <- (is_ok_encoded_addresses d s path (UI_init d s path i))
    by reflexivity.
  unfold unparse, AX25_fcs, header.
  destruct (encoded_addresses (UI_init d s path i)); reflexivity.
Qed.

(** X15: An object built by [AX25.__init__] alone has no control field and no
    protocol id: it is never serialized, and with valid callsigns the
    error is an AttributeError. *)
Theorem unparse_base_frame_fails (d s : bytes) (path : list bytes) (i : bytes) :
  is_ok (unparse (AX25_init d s path i)) = false
  /\ (is_ok (encoded_addresses (AX25_init d s path i)) = true ->
      unparse (AX25_init d s path i) = Raise AttributeError
      /\ header (AX25_init d s path i) = Raise AttributeError
      /\ AX25_fcs (AX25_init d s path i) = Raise AttributeError).
Proof.
  unfold unparse, AX25_fcs, header.
  destruct (encoded_addresses (AX25_init d s path i)); cbn; auto.
  split; [reflexivity | discriminate].
Qed.

(** The AttributeError on a base frame with the addresses of the UI
    example. *)
Lemma unparse_base_frame_fails_witness :
  unparse (AX25_init (bytes_lit "APRS") (bytes_lit "N0CALL") [] [])
  = Raise AttributeError.
Proof.
  apply (unparse_base_frame_fails (bytes_lit "APRS") (bytes_lit "N0CALL") [] []).
  reflexivity.
Defined.

End Framing.

(** ** More on the callsign codec *)

Section CallsignCodec.

Lemma upper_byte_idem (c : byte) : upper_byte (upper_byte c) = upper_byte c.
Proof. destruct c as [[] [] [] [] [] [] [] []]; reflexivity. Qed.

Lemma bytes_upper_idem (s : bytes) : bytes_upper (bytes_upper s) = bytes_upper s.
Proof.
  unfold bytes_upper. rewrite map_map. apply map_ext. apply upper_byte_idem.
Qed.

(** X16: Encoding does not depend on the case of the letters. *)
Theorem callsign_encode_case_insensitive (cs : bytes) :
  callsign_encode (bytes_upper cs) = callsign_encode cs.
Proof.
  unfold callsign_encode. now rewrite bytes_upper_idem.
Qed.

Lemma bytes_split_nonempty (s : bytes) : bytes_split hyphen s <> [].
Proof.
  induction s as [|x s IH]; cbn [bytes_split]; [discriminate|].
  destruct (byte_eqb x hyphen); [discriminate|].
  now destruct (bytes_split hyphen s).
Qed.

Lemma bytes_split_two (s : bytes) :
  no_hyphen s = false -> exists a b r, bytes_split hyphen s = a :: b :: r.
Proof.
  induction s as [|x s IH]; cbn [no_hyphen forallb bytes_split];
    [discriminate|].
  fold (no_hyphen s).
  destruct (byte_eqb x hyphen); cbn [negb andb].
  - intros _. destruct (bytes_split hyphen s) as [|b r] eqn:E.
    + now apply bytes_split_nonempty in E.
    + now exists [], b, r.
  - intros H. destruct (IH H) as (a & b & r & ->). now exists (x :: a), b, r.
Qed.

Lemma bytes_split_app (c s : bytes) :
  no_hyphen c = true ->
  bytes_split hyphen (c ++ hyphen :: s) = c :: bytes_split hyphen s.
Proof.
  intros Hc. induction c as [|x c IH]; cbn [app bytes_split].
  - reflexivity.
  - cbn [no_hyphen forallb] in Hc. apply andb_prop in Hc as [H1 H2].
    destruct (byte_eqb x hyphen); [discriminate|].
    now rewrite (IH H2).
Qed.

(** X17: A second hyphen: when the part after the first hyphen (which is not in
    front) holds another one, unpacking the split into two names raises
    ValueError, before any assertion is reached. *)
Theorem callsign_encode_two_hyphens (c s : bytes) :
  c <> [] -> no_hyphen c = true -> no_hyphen s = false ->
  callsign_encode (c ++ hyphen :: s) = Raise ValueError.
Proof.
  intros Hne Hc Hs. unfold callsign_encode.
  rewrite bytes_find_upper, bytes_split_upper.
  rewrite bytes_find_app_hyphen, bytes_split_app by assumption.
  assert (0 < len c) as Hpos.
  { unfold len. destruct c; [congruence|]. simpl List.length. lia. }
  destruct (Z.gtb_spec (len c) 0) as [G|G]; [|lia].
  destruct (bytes_split_two s Hs) as (a & b & r & ->).
  reflexivity.
Qed.

(** The ValueError on [AB-1-2]. *)
Lemma callsign_encode_two_hyphens_witness :
  callsign_encode (bytes_lit "AB" ++ hyphen :: bytes_lit "1-2")
  = Raise ValueError.
Proof.
  apply (callsign_encode_two_hyphens (bytes_lit "AB") (bytes_lit "1-2"));
    [discriminate | reflexivity | reflexivity].
Defined.

Lemma callsign_decode_frombytes (e : bytes) :
  callsign_decode (frombytes (bitarray_new little) e)
  = string_of_list_ascii (map (fun char => chr (Z.shiftr (ord char) 1)) e).
Proof. unfold callsign_decode. now rewrite tobytes_frombytes. Qed.

Lemma forallb_repeat_space (n : nat) :
  forallb is_ascii7 (repeat space n) = true.
Proof.
  apply forallb_forall. intros x Hx. apply repeat_spec in Hx. now subst x.
Qed.

Lemma bytes_upper_repeat_space (n : nat) :
  bytes_upper (repeat space n) = repeat space n.
Proof. induction n as [|n IH]; [reflexivity|]. simpl. now rewrite IH. Qed.

(** X18: Without a hyphen the SSID is "0": a hyphen-free input of at most six
    bytes below 128 (the empty one included) is encoded, and decoding gives
    the upper-cased input, padded to six characters, followed by "0". *)
Theorem callsign_default_ssid (cs : bytes) :
  no_hyphen cs = true -> len cs <= 6 -> forallb is_ascii7 cs = true ->
  exists enc,
    callsign_encode cs = Ok enc
    /\ callsign_decode (frombytes (bitarray_new little) enc)
       = string_of_list_ascii
           (bytes_upper cs ++ repeat space (6 - List.length cs)
              ++ bytes_lit "0").
Proof.
  intros Hn Hl Ha.
  rewrite callsign_encode_nosplit
    by (rewrite bytes_find_no_hyphen by assumption; lia).
  destruct (Z.ltb_spec 6 (len cs)) as [M|M]; [lia|].
  rewrite Ha. eexists. split; [reflexivity|].
  rewrite callsign_decode_frombytes, decode_shifted; [reflexivity|].
  rewrite !forallb_app, forallb_ascii7_upper, Ha, forallb_repeat_space.
  reflexivity.
Qed.

(** The default SSID on the callsign [aprs]. *)
Lemma callsign_default_ssid_witness :
  exists enc,
    callsign_encode (bytes_lit "aprs") = Ok enc
    /\ callsign_decode (frombytes (bitarray_new little) enc) = "APRS  0"%string.
Proof.
  apply (callsign_default_ssid (bytes_lit "aprs")); [reflexivity| |reflexivity].
  vm_compute. discriminate.
Defined.

Lemma callsign_encode_parts (cs e : bytes) :
  callsign_encode cs = Ok e ->
  exists c s,
    bytes_upper c = c /\ bytes_upper s = s
    /\ len s = 1 /\ len c <= 6
    /\ forallb is_ascii7 (c ++ repeat space (6 - List.length c) ++ s) = true
    /\ e = map shift1 (c ++ repeat space (6 - List.length c) ++ s).
Proof.
  unfold callsign_encode.
  match goal with
  | |- bind ?r _ = _ -> _ => destruct r as [[c s]|] eqn:R
  end; cbn [bind]; [|discriminate].
  assert (bytes_upper c = c /\ bytes_upper s = s) as [Uc Us].
  { destruct (bytes_find hyphen (bytes_upper cs) >? 0).
    - rewrite bytes_split_upper in R.
      destruct (bytes_split hyphen cs) as [|c0 [|s0 [|x l]]];
        cbn [map] in R; try discriminate R.
      injection R as <- <-. split; apply bytes_upper_idem.
    - injection R as <- <-. split; [apply bytes_upper_idem | reflexivity]. }
  destruct (Z.eqb_spec (len s) 1) as [E1|E1]; cbn [negb]; [|discriminate].
  destruct (Z.leb_spec (len c) 6) as [E2|E2]; cbn [negb]; [|discriminate].
  rewrite pad6 by assumption. rewrite shift_all, <- app_assoc.
  destruct (forallb is_ascii7 _) eqn:A; [|discriminate].
  intros [= <-]. exists c, s. auto 10.
Qed.

(** X19: Whatever the input, a successful encoding is the shifted form of a
    seven-character text in upper case with all codes below 128 (callsign
    part, padding, SSID character), and callsign_decode returns that
    text. *)
Theorem callsign_encode_canonical (cs e : bytes) :
  callsign_encode cs = Ok e ->
  exists t,
    List.length t = 7%nat
    /\ bytes_upper t = t
    /\ forallb is_ascii7 t = true
    /\ e = map shift1 t
    /\ callsign_decode (frombytes (bitarray_new little) e)
       = string_of_list_ascii t.
Proof.
  intros H.
  destruct (callsign_encode_parts cs e H) as (c & s & Uc & Us & L1 & L6 & A & ->).
  exists (c ++ repeat space (6 - List.length c) ++ s).
  repeat split.
  - rewrite !length_app, repeat_length. unfold len in L1, L6. lia.
  - unfold bytes_upper in *. rewrite !map_app.
    fold (bytes_upper (repeat space (6 - List.length c))).
    now rewrite bytes_upper_repeat_space, Uc, Us.
  - exact A.
  - rewrite callsign_decode_frombytes. now rewrite decode_shifted.
Qed.

(** The canonical text of [wide2-1]. *)
Lemma callsign_encode_canonical_witness :
  exists t,
    List.length t = 7%nat
    /\ bytes_upper t = t
    /\ forallb is_ascii7 t = true
    /\ map shift1 (bytes_lit "WIDE2 1") = map shift1 t
    /\ callsign_decode
         (frombytes (bitarray_new little) (map shift1 (bytes_lit "WIDE2 1")))
       = string_of_list_ascii t.
Proof.
  apply (callsign_encode_canonical (bytes_lit "wide2-1")). reflexivity.
Defined.

End CallsignCodec.

(** ** The address field and the parsed object *)

Section AddressField.

Lemma decoded_text_map (e : bytes) :
  decoded_text e = map (fun char => chr (Z.shiftr (ord char) 1)) e.
Proof.
  unfold decoded_text.
  now rewrite callsign_decode_frombytes, list_ascii_of_string_of_list_ascii.
Qed.

Lemma decoded_text_app (x y : bytes) :
  decoded_text (x ++ y) = decoded_text x ++ decoded_text y.
Proof. rewrite !decoded_text_map. apply map_app. Qed.

Lemma decoded_text_concat (g : list bytes) :
  decoded_text (List.concat g) = flat_map decoded_text g.
Proof.
  induction g as [|e g IH]; [reflexivity|].
  cbn [List.concat flat_map]. now rewrite decoded_text_app, IH.
Qed.

Lemma unshift_or1 (c : byte) :
  chr (Z.shiftr (ord (byte_of_Z (Z.lor (ord c) 0x01))) 1)
  = chr (Z.shiftr (ord c) 1).
Proof. destruct c as [[] [] [] [] [] [] [] []]; reflexivity. Qed.

Lemma decoded_text_or_last (x a : bytes) :
  or_last x = Ok a -> decoded_text a = decoded_text x.
Proof.
  unfold or_last. destruct x as [|c x]; [discriminate|].
  intros [= <-].
  assert (c :: x <> []) as Hne by discriminate.
  transitivity (decoded_text (removelast (c :: x) ++ [last (c :: x) zero])).
  - rewrite !decoded_text_app, !decoded_text_map. cbn [map].
    now rewrite unshift_or1.
  - f_equal. symmetry. apply app_removelast_last. exact Hne.
Qed.

(** X20: The end-of-address bit does not disturb decoding: callsign_decode of
    the whole address field is the sequence of the texts of the encoded
    destination, source and digipeaters, in this order. *)
Theorem encoded_addresses_decoded (self : AX25) (a : bytes) :
  encoded_addresses self = Ok a ->
  exists ed es eg,
    callsign_encode_attr (destination self) = Ok ed
    /\ callsign_encode_attr (source self) = Ok es
    /\ mapM callsign_encode (digipeaters self) = Ok eg
    /\ decoded_text a
       = decoded_text ed ++ decoded_text es ++ flat_map decoded_text eg.
Proof.
  unfold encoded_addresses.
  destruct (callsign_encode_attr (destination self)) as [ed|]; cbn [bind];
    [|discriminate].
  destruct (callsign_encode_attr (source self)) as [es|]; cbn [bind];
    [|discriminate].
  destruct (mapM callsign_encode (digipeaters self)) as [eg|]; cbn [bind];
    [|discriminate].
  intros H. exists ed, es, eg. repeat split.
  rewrite (decoded_text_or_last _ _ H).
  now rewrite !decoded_text_app, decoded_text_concat.
Qed.

(** The texts of the address field of the UI example frame. *)
Lemma encoded_addresses_decoded_witness :
  exists a,
    encoded_addresses ui_example = Ok a
    /\ decoded_text a
       = bytes_lit "APRS  0" ++ bytes_lit "N0CALL0"
           ++ bytes_lit "WIDE1 1" ++ bytes_lit "WIDE2 1".
Proof.
  destruct (encoded_addresses ui_example) as [a|] eqn:E;
    [|vm_compute in E; discriminate E].
  exists a. split; [reflexivity|].
  destruct (encoded_addresses_decoded ui_example a E)
    as (ed & es & eg & Hd & Hs & Hg & ->).
  vm_compute in Hd, Hs, Hg.
  injection Hd as <-. injection Hs as <-. injection Hg as <-.
  reflexivity.
Defined.

(** X21: parse writes destination, source, info and digis and nothing else: the
    flag, the digipeater path given to the constructor, the control field
    and the protocol id are those of the object before the call. *)
Theorem parse_keeps_other_attributes (self : AX25) (data : bitarray) :
  flag (parse self data) = flag self
  /\ digipeaters (parse self data) = digipeaters self
  /\ control_field (parse self data) = control_field self
  /\ protocol_id (parse self data) = protocol_id self
  /\ digis (parse self data) <> None.
Proof.
  destruct (parse_outcomes self data) as [E|(d & s & E)]; rewrite E;
    cbn; repeat split; discriminate.
Qed.

(** X22: parse does not read the attributes it writes: its result is the same
    whatever destination, source, info and digis held before. *)
Theorem parse_overwrites (self : AX25) (d s i g : pyval) (data : bitarray) :
  parse (set_fields self d s i g) data = parse self data.
Proof.
  unfold parse, parse_try, parse_split. cbv zeta.
  change (flag (set_fields self d s i g)) with (flag self).
  repeat match goal with
         | |- context [bind ?r _] =>
             lazymatch r with
             | bind _ _ => fail
             | _ => destruct r; cbn [bind]
             end
         end; reflexivity.
Qed.

(** X23: After any parse the object holds [str] addresses, which
    callsign_encode does not accept: it can no longer be serialized. *)
Theorem unparse_after_parse (self : AX25) (data : bitarray) :
  unparse (parse self data) = Raise TypeError.
Proof.
  destruct (parse_outcomes self data) as [E|(d & s & E)]; rewrite E;
    reflexivity.
Qed.

Lemma callsign_encode_attr_length (v : pyval) (e : bytes) :
  callsign_encode_attr v = Ok e -> List.length e = 7%nat.
Proof.
  destruct v; cbn [callsign_encode_attr]; try discriminate.
  intros H. now apply callsign_encode_ok_shape in H.
Qed.

Lemma mapM_callsign_encode_length (path : list bytes) :
  forall g, mapM callsign_encode path = Ok g ->
            List.length (List.concat g) = (7 * List.length path)%nat.
Proof.
  induction path as [|d path IH]; cbn [mapM]; intros g H.
  - injection H as <-. reflexivity.
  - destruct (callsign_encode d) as [e|] eqn:E; cbn [bind] in H;
      [|discriminate].
    destruct (mapM callsign_encode path) as [g'|]; cbn [bind] in H;
      [|discriminate].
    injection H as <-. cbn [List.concat List.length].
    rewrite length_app, (IH g' eq_refl).
    apply callsign_encode_ok_shape in E as [-> _]. lia.
Qed.

Lemma length_replace_last {A : Type} (l : list A) (y : A) :
  l <> [] -> List.length (removelast l ++ [y]) = List.length l.
Proof.
  induction l as [|x l IH]; [congruence|]. intros _.
  destruct l as [|x' l]; [reflexivity|].
  change (removelast (x :: x' :: l)) with (x :: removelast (x' :: l)).
  cbn [app List.length]. rewrite IH by discriminate. reflexivity.
Qed.

Lemma or_last_length (x a : bytes) :
  or_last x = Ok a -> List.length a = List.length x.
Proof.
  unfold or_last. destruct x as [|c x]; [discriminate|].
  intros [= <-]. apply (length_replace_last (c :: x)). discriminate.
Qed.

Lemma encoded_addresses_length (self : AX25) (a : bytes) :
  encoded_addresses self = Ok a ->
  List.length a = (7 * (2 + List.length (digipeaters self)))%nat.
Proof.
  unfold encoded_addresses.
  destruct (callsign_encode_attr (destination self)) as [ed|] eqn:Ed;
    cbn [bind]; [|discriminate].
  destruct (callsign_encode_attr (source self)) as [es|] eqn:Es;
    cbn [bind]; [|discriminate].
  destruct (mapM callsign_encode (digipeaters self)) as [eg|] eqn:Eg;
    cbn [bind]; [|discriminate].
  intros H. rewrite (or_last_length _ _ H), !length_app.
  rewrite (callsign_encode_attr_length _ _ Ed),
          (callsign_encode_attr_length _ _ Es),
          (mapM_callsign_encode_length _ _ Eg). lia.
Qed.

(** X24: The size of a serialized UI frame: two flags, and between them the
    18 + 7 * (number of digipeaters) + (length of info) bytes of addresses,
    control, protocol id, info and FCS, lengthened by stuffing by at most
    one bit in five. *)
Theorem unparse_ui_length (d s : bytes) (path : list bytes) (i : bytes)
        (wire : bitarray) :
  unparse (UI_init d s path i) = Ok wire ->
  let n := (8 * (18 + 7 * List.length path + List.length i))%nat in
  (16 + n <= List.length (bits wire))%nat
  /\ (5 * (List.length (bits wire) - 16) <= 6 * n)%nat.
Proof.
  intros Hu n.
  destruct (unparse_ok_inv _ _ Hu) as (h & i' & f & H & I & F & ->).
  injection I as <-.
  unfold AX25_fcs in F. rewrite H in F. cbn [bind info UI_init AX25_init as_bytes] in F.
  injection F as <-.
  unfold header in H.
  destruct (encoded_addresses (UI_init d s path i)) as [a|] eqn:A;
    cbn [bind] in H; [|discriminate].
  apply encoded_addresses_length in A. cbn [digipeaters UI_init AX25_init] in A.
  cbn [control_field protocol_id UI_init AX25_init getattr bind] in H.
  injection H as <-.
  match goal with
  | |- context [bit_stuff (bits_of ?b)] => set (body := b)
  end.
  assert (List.length (bits_of body) = n) as L.
  { rewrite bits_of_length. unfold body, n.
    rewrite !length_app, A. unfold digest, struct_pack_H.
    cbn [List.length]. lia. }
  destruct (bit_stuff_loop_bounds (bits_of body) 0 ltac:(lia)) as [B1 B2].
  fold (bit_stuff (bits_of body)) in B1, B2. unfold len in B2.
  cbn [bits]. rewrite !length_app.
  change (List.length (bits_of (flag (UI_init d s path i)))) with 8%nat.
  lia.
Qed.

(** The size of the serialized UI example frame: 281 bits. *)
Lemma unparse_ui_length_witness :
  exists wire,
    unparse ui_example = Ok wire
    /\ (16 + 8 * (18 + 7 * 2 + 1) <= List.length (bits wire))%nat
    /\ (5 * (List.length (bits wire) - 16) <= 6 * (8 * (18 + 7 * 2 + 1)))%nat.
Proof.
  destruct (unparse ui_example) as [wire|] eqn:E;
    [|vm_compute in E; discriminate E].
  exists wire. split; [reflexivity|].
  apply (unparse_ui_length (bytes_lit "APRS") (bytes_lit "N0CALL")
           [bytes_lit "WIDE1-1"; bytes_lit "WIDE2-1"] (bytes_lit "!") wire E).
Defined.

End AddressField.
